(** * GitCarrier: the Repository Gateway and the Interactive Controller

    A shallow embedding of [git_carrier.py]: the class [GitManager] (the
    gateway around the external [git] binary) and the event handlers of the
    class [ModernUI] (the controller).  Python strings are Rocq strings
    (a character is a code point below 256), Python integers are [Z],
    [None]-or-value is [option], and every effect of the program (a spawned
    process, a line printed, a dialog, a settings write) is appended to a
    journal kept next to the state of the outside world, so that "no
    process is spawned" and "verification precedes the merge" are
    statements about that journal.  The window is driven by events; the
    worker thread that creates a bundle runs as one event of its own, at
    any later time. *)

From Stdlib Require Import List String Ascii ZArith Bool Lia DecimalString.
Import ListNotations.
Local Open Scope string_scope.
Local Open Scope Z_scope.

Set Implicit Arguments.

(** ** Python strings *)

(** Truth value of a [str]: non-empty. *)
Definition truthy (s : string) : bool :=
  match s with EmptyString => false | String _ _ => true end.

(** [a or b] on strings. *)
Definition py_or (a b : string) : string := if truthy a then a else b.

(** [str(n)] / [f"{n}"] for an integer. *)
Definition str_of_int (n : Z) : string := NilZero.string_of_int (Z.to_int n).

(** [s.split(sep)] for a one-character separator: every occurrence cuts,
    so the result has one more piece than there are separators, and the
    empty string gives one empty piece. *)
Fixpoint split (sep : ascii) (s : string) : list string :=
  match s with
  | EmptyString => [EmptyString]
  | String c s' =>
      if Ascii.eqb c sep then EmptyString :: split sep s'
      else match split sep s' with
           | p :: ps => String c p :: ps
           | [] => [String c EmptyString]
           end
  end.

(** [str.isspace] on the code points below 256. *)
Definition isspace (c : ascii) : bool :=
  let n := N_of_ascii c in
  (((9 <=? n) && (n <=? 13)) || ((28 <=? n) && (n <=? 32))
   || (n =? 133) || (n =? 160))%N.

Fixpoint lstrip (s : string) : string :=
  match s with
  | EmptyString => EmptyString
  | String c s' => if isspace c then lstrip s' else s
  end.

Fixpoint rstrip (s : string) : string :=
  match s with
  | EmptyString => EmptyString
  | String c s' =>
      match rstrip s' with
      | EmptyString => if isspace c then EmptyString else String c EmptyString
      | r => String c r
      end
  end.

(** [s.strip()] *)
Definition strip (s : string) : string := rstrip (lstrip s).

(** [s[:n]] *)
Definition take (n : nat) (s : string) : string := substring 0 n s.

Definition newline : ascii := ascii_of_nat 10.
Definition bar : ascii := "|"%char.
Definition nl : string := String newline EmptyString.

(** ** The outside world *)

(** [subprocess.CompletedProcess] as the program reads it. *)
Record CompletedProcess := {
  returncode : Z;
  stdout : string;
  stderr : string
}.

(** What the program takes from the operating system and the standard
    library.  [subprocess_run argv cwd] either raises (left, with the text
    of the exception) or completes (right), and may change the world. *)
Class Host := {
  World : Type;
  os_path_isdir : string -> World -> bool;
  os_path_exists : string -> World -> bool;
  os_path_join : string -> string -> string;
  os_path_basename : string -> string;
  subprocess_run :
    list string -> string -> World -> (string + CompletedProcess) * World;
  (** [data.get("last_repo", "")] of a readable [settings.json]; [None]
      when the file is missing or reading it raises. *)
  settings_last_repo : World -> option string
}.

Inductive box_kind := showinfo | showwarning | showerror.

(** One observable action of the program. *)
Inductive Effect :=
| Spawn (argv : list string) (cwd : string) (out : string + CompletedProcess)
| Print (line : string)
| MessageBox (kind : box_kind) (title message : string)
| AskYesNo (title message : string) (answer : bool)
| WriteSettings (last_repo : string)
| ThreadStart (filepath branch : string).

Record Sys `{Host} := {
  world : World;
  journal : list Effect
}.

(** ** Computations that may raise *)

Inductive exn := AttributeError (msg : string).

Inductive result (A : Type) :=
| Ok (a : A)
| Raised (e : exn).
Arguments Ok {A} a.
Arguments Raised {A} e.

(** State is kept when an exception is raised: Python does not roll back. *)
Definition M (S A : Type) := S -> result A * S.

Definition ret {S A} (a : A) : M S A := fun s => (Ok a, s).

Definition bind {S A B} (m : M S A) (k : A -> M S B) : M S B :=
  fun s => match m s with
           | (Ok a, s') => k a s'
           | (Raised e, s') => (Raised e, s')
           end.

Definition raise {S A} (e : exn) : M S A := fun s => (Raised e, s).

Definition gets {S A} (f : S -> A) : M S A := fun s => (Ok (f s), s).

Definition modify {S} (f : S -> S) : M S unit := fun s => (Ok tt, f s).

(** [try: m  except: pass] *)
Definition try_pass {S} (m : M S unit) : M S unit :=
  fun s => match m s with
           | (Ok u, s') => (Ok u, s')
           | (Raised _, s') => (Ok tt, s')
           end.

Notation "x <- m ;; k" := (bind m (fun x => k))
  (at level 61, m at next level, right associativity).
Notation "m ;;; k" := (bind m (fun _ => k))
  (at level 61, right associativity).

Definition none_has_no (attr : string) : exn :=
  AttributeError ("'NoneType' object has no attribute '" ++ attr ++ "'").

(** ** class GitManager *)

Record GitManager := { repo_path : string }.

Record Commit := {
  hash : string;
  date : string;
  author : string;
  msg : string
}.

Section Gateway.
Context `{Host}.

Definition emit (e : Effect) : M Sys unit :=
  modify (fun s => {| world := world s; journal := journal s ++ [e] |}).

(** [subprocess.run(argv, cwd=cwd, capture_output=True, text=True, ...)],
    journalled together with its outcome. *)
Definition spawn (argv : list string) (cwd : string)
  : M Sys (string + CompletedProcess) :=
  fun s =>
    let '(out, w') := subprocess_run argv cwd (world s) in
    (Ok out, {| world := w'; journal := journal s ++ [Spawn argv cwd out] |}).

Definition is_git_repo (path : string) : M Sys bool :=
  gets (fun s => os_path_isdir (os_path_join path ".git") (world s)).

(** Returns the manager after the call next to the boolean. *)
Definition set_repo_path (self : GitManager) (path : string)
  : M Sys (bool * GitManager) :=
  ok <- is_git_repo path ;;
  if ok then ret (true, {| repo_path := path |})
  else ret (false, self).

(** [None] is returned both when no repository is set and when starting
    the process raised; the [STARTUPINFO] set up on Windows only hides
    the console window and is part of [subprocess_run]. *)
Definition run_git (self : GitManager) (args : list string)
  : M Sys (option CompletedProcess) :=
  if negb (truthy (repo_path self)) then ret None
  else
    out <- spawn ("git" :: args) (repo_path self) ;;
    match out with
    | inr res => ret (Some res)
    | inl e => emit (Print ("Git Error: " ++ e)) ;;; ret None
    end.

Definition get_current_branch (self : GitManager) : M Sys string :=
  res <- run_git self ["branch"; "--show-current"] ;;
  match res with
  | Some r => ret (strip (stdout r))
  | None => ret ""
  end.

Definition get_all_branches (self : GitManager) : M Sys (list string) :=
  res <- run_git self ["branch"; "--format=%(refname:short)"] ;;
  match res with
  | Some r =>
      if returncode r =? 0 then
        ret (map strip
               (filter (fun b => truthy (strip b))
                       (split newline (strip (stdout r)))))
      else ret []
  | None => ret []
  end.

Definition log_args (branch : string) (skip limit : Z) : list string :=
  ["log"; branch; "--pretty=format:%h|%ad|%an|%s"; "--date=short";
   "-n " ++ str_of_int limit; "--skip=" ++ str_of_int skip].

(** The body of the [for line in ...] loop: [commits] after one line. *)
Definition get_commits_line (commits : list Commit) (line : string)
  : list Commit :=
  let parts := split bar line in
  if (4 <=? List.length parts)%nat then
    commits ++ [{| hash := nth 0 parts ""; date := nth 1 parts "";
                   author := nth 2 parts ""; msg := nth 3 parts "" |}]
  else commits.

Definition get_commits (self : GitManager) (branch : string) (skip limit : Z)
  : M Sys (list Commit) :=
  res <- run_git self (log_args branch skip limit) ;;
  match res with
  | Some r =>
      if (returncode r =? 0) && truthy (stdout r) then
        ret (fold_left get_commits_line (split newline (stdout r)) [])
      else ret []
  | None => ret []
  end.

(** [if start_point:] is false for [None] and for the empty string. *)
Definition rev_range (start_point : option string) (branch : string)
  : string :=
  match start_point with
  | Some sp => if truthy sp then sp ++ ".." ++ branch else branch
  | None => branch
  end.

Definition create_bundle (self : GitManager) (start_point : option string)
    (branch output_path : string) : M Sys (bool * string) :=
  res <- run_git self
           ["bundle"; "create"; output_path; rev_range start_point branch] ;;
  match res with
  | Some r => ret (returncode r =? 0, py_or (stderr r) (stdout r))
  | None => raise (none_has_no "returncode")
  end.

Definition verify_bundle (self : GitManager) (bundle_path : string)
  : M Sys (bool * string) :=
  res <- run_git self ["bundle"; "verify"; bundle_path] ;;
  match res with
  | Some r => ret (returncode r =? 0, stdout r)
  | None => raise (none_has_no "returncode")
  end.

Definition fetch_bundle (self : GitManager) (bundle_path branch : string)
  : M Sys (bool * string) :=
  res <- run_git self ["pull"; bundle_path; branch] ;;
  match res with
  | Some r => ret (returncode r =? 0, stdout r)
  | None => raise (none_has_no "returncode")
  end.

End Gateway.

(** ** class ModernUI: the state the handlers read and write *)

Inductive btn_state := normal | disabled.

(** The branch selector: its list of values and the text it shows. *)
Record Combobox := {
  values : list string;
  text : string
}.

Record ModernUI := {
  git : GitManager;
  current_page : Z;
  page_size : Z;
  selected_commit_hash : option string;
  path_var : string;
  status_var : string;
  branch_combo : Combobox;
  tree : list Commit;             (* rows of the commit table, in order *)
  lbl_page : string;
  lbl_selection : string;
  btn_prev : btn_state;
  btn_next : btn_state
}.

Definition with_git v u :=
  {| git := v; current_page := current_page u; page_size := page_size u;
     selected_commit_hash := selected_commit_hash u; path_var := path_var u;
     status_var := status_var u; branch_combo := branch_combo u;
     tree := tree u; lbl_page := lbl_page u; lbl_selection := lbl_selection u;
     btn_prev := btn_prev u; btn_next := btn_next u |}.

Definition with_current_page v u :=
  {| git := git u; current_page := v; page_size := page_size u;
     selected_commit_hash := selected_commit_hash u; path_var := path_var u;
     status_var := status_var u; branch_combo := branch_combo u;
     tree := tree u; lbl_page := lbl_page u; lbl_selection := lbl_selection u;
     btn_prev := btn_prev u; btn_next := btn_next u |}.

Definition with_selected_commit_hash v u :=
  {| git := git u; current_page := current_page u; page_size := page_size u;
     selected_commit_hash := v; path_var := path_var u;
     status_var := status_var u; branch_combo := branch_combo u;
     tree := tree u; lbl_page := lbl_page u; lbl_selection := lbl_selection u;
     btn_prev := btn_prev u; btn_next := btn_next u |}.

Definition with_path_var v u :=
  {| git := git u; current_page := current_page u; page_size := page_size u;
     selected_commit_hash := selected_commit_hash u; path_var := v;
     status_var := status_var u; branch_combo := branch_combo u;
     tree := tree u; lbl_page := lbl_page u; lbl_selection := lbl_selection u;
     btn_prev := btn_prev u; btn_next := btn_next u |}.

Definition with_status_var v u :=
  {| git := git u; current_page := current_page u; page_size := page_size u;
     selected_commit_hash := selected_commit_hash u; path_var := path_var u;
     status_var := v; branch_combo := branch_combo u;
     tree := tree u; lbl_page := lbl_page u; lbl_selection := lbl_selection u;
     btn_prev := btn_prev u; btn_next := btn_next u |}.

Definition with_branch_combo v u :=
  {| git := git u; current_page := current_page u; page_size := page_size u;
     selected_commit_hash := selected_commit_hash u; path_var := path_var u;
     status_var := status_var u; branch_combo := v;
     tree := tree u; lbl_page := lbl_page u; lbl_selection := lbl_selection u;
     btn_prev := btn_prev u; btn_next := btn_next u |}.

Definition with_tree v u :=
  {| git := git u; current_page := current_page u; page_size := page_size u;
     selected_commit_hash := selected_commit_hash u; path_var := path_var u;
     status_var := status_var u; branch_combo := branch_combo u;
     tree := v; lbl_page := lbl_page u; lbl_selection := lbl_selection u;
     btn_prev := btn_prev u; btn_next := btn_next u |}.

Definition with_lbl_page v u :=
  {| git := git u; current_page := current_page u; page_size := page_size u;
     selected_commit_hash := selected_commit_hash u; path_var := path_var u;
     status_var := status_var u; branch_combo := branch_combo u;
     tree := tree u; lbl_page := v; lbl_selection := lbl_selection u;
     btn_prev := btn_prev u; btn_next := btn_next u |}.

Definition with_lbl_selection v u :=
  {| git := git u; current_page := current_page u; page_size := page_size u;
     selected_commit_hash := selected_commit_hash u; path_var := path_var u;
     status_var := status_var u; branch_combo := branch_combo u;
     tree := tree u; lbl_page := lbl_page u; lbl_selection := v;
     btn_prev := btn_prev u; btn_next := btn_next u |}.

Definition with_btn_prev v u :=
  {| git := git u; current_page := current_page u; page_size := page_size u;
     selected_commit_hash := selected_commit_hash u; path_var := path_var u;
     status_var := status_var u; branch_combo := branch_combo u;
     tree := tree u; lbl_page := lbl_page u; lbl_selection := lbl_selection u;
     btn_prev := v; btn_next := btn_next u |}.

Definition with_btn_next v u :=
  {| git := git u; current_page := current_page u; page_size := page_size u;
     selected_commit_hash := selected_commit_hash u; path_var := path_var u;
     status_var := status_var u; branch_combo := branch_combo u;
     tree := tree u; lbl_page := lbl_page u; lbl_selection := lbl_selection u;
     btn_prev := btn_prev u; btn_next := v |}.

Definition all_history : string := "Bundle Content: ALL History (Default)".

(** The fields as [__init__] and the widget constructors leave them: both
    paging buttons are created in the default (normal) state. *)
Definition initial_ui : ModernUI :=
  {| git := {| repo_path := "" |}; current_page := 0; page_size := 15;
     selected_commit_hash := None; path_var := "No Project Selected";
     status_var := "Ready."; branch_combo := {| values := []; text := "" |};
     tree := []; lbl_page := "Page 1"; lbl_selection := all_history;
     btn_prev := normal; btn_next := normal |}.

(** The running application: the window, the outside world with the
    journal, and the worker threads started but not yet run, each with the
    arguments of [_run_bundle_creation]. *)
Record App `{Host} := {
  ui : ModernUI;
  sys : Sys;
  threads : list (string * string)
}.

Section Controller.
Context `{Host}.

Definition io {A} (m : M Sys A) : M App A :=
  fun a => let '(r, s') := m (sys a) in
           (r, {| ui := ui a; sys := s'; threads := threads a |}).

Definition self {A} (f : ModernUI -> A) : M App A := gets (fun a => f (ui a)).

Definition assign (f : ModernUI -> ModernUI) : M App unit :=
  modify (fun a => {| ui := f (ui a); sys := sys a; threads := threads a |}).

Definition messagebox (kind : box_kind) (title message : string)
  : M App unit := io (emit (MessageBox kind title message)).

(** [messagebox.askyesno]; the answer is the user's. *)
Definition askyesno (title message : string) (answer : bool) : M App bool :=
  io (emit (AskYesNo title message answer)) ;;; ret answer.

(** [threading.Thread(target=self._run_bundle_creation, args=...).start()] *)
Definition thread_start (filepath branch : string) : M App unit :=
  io (emit (ThreadStart filepath branch)) ;;;
  modify (fun a => {| ui := ui a; sys := sys a;
                      threads := threads a ++ [(filepath, branch)] |}).

(** [for c in commits: self.tree.insert("", "end", values=...)] on the
    emptied table. *)
Definition tree_populate (commits : list Commit) : list Commit :=
  fold_left (fun rows c => (rows ++ [c])%list) commits [].

Definition load_commits (reset_page : bool) : M App unit :=
  g <- self git ;;
  if negb (truthy (repo_path g)) then ret tt
  else
    (if reset_page then
       assign (with_current_page 0) ;;;
       assign (with_selected_commit_hash None) ;;;
       assign (with_lbl_selection all_history)
     else ret tt) ;;;
    branch <- self (fun u => text (branch_combo u)) ;;
    if negb (truthy branch) then ret tt
    else
      page <- self current_page ;;
      size <- self page_size ;;
      let skip := page * size in
      commits <- io (get_commits g branch skip size) ;;
      assign (with_tree (tree_populate commits)) ;;;
      assign (with_lbl_page ("Page " ++ str_of_int (page + 1))) ;;;
      assign (with_btn_prev (if 0 <? page then normal else disabled)) ;;;
      assign (with_btn_next
                (if Z.of_nat (List.length commits) =? size
                 then normal else disabled)).

Definition refresh_project_info : M App unit :=
  g <- self git ;;
  if negb (truthy (repo_path g)) then ret tt
  else
    branches <- io (get_all_branches g) ;;
    current <- io (get_current_branch g) ;;
    assign (fun u => with_branch_combo
                       {| values := branches;
                          text := text (branch_combo u) |} u) ;;;
    (if truthy current && existsb (String.eqb current) branches then
       assign (with_branch_combo {| values := branches; text := current |})
     else
       match branches with
       | b0 :: _ =>
           assign (with_branch_combo {| values := branches; text := b0 |})
       | [] => ret tt
       end) ;;;
    load_commits true ;;;
    assign (with_status_var
              ("Loaded project: " ++ os_path_basename (repo_path g))).

(** [json.dump] into [settings.json]; a failure to write is swallowed. *)
Definition save_settings (path : string) : M App unit :=
  try_pass (io (emit (WriteSettings path))).

(** [path] is what the folder dialog returned, empty when cancelled. *)
Definition browse_folder (path : string) : M App unit :=
  if truthy path then
    g <- self git ;;
    r <- io (set_repo_path g path) ;;
    assign (with_git (snd r)) ;;;
    if fst r then
      assign (with_path_var path) ;;;
      save_settings path ;;;
      refresh_project_info
    else messagebox showerror "Error" "This folder is not a Git repository."
  else ret tt.

Definition prev_page : M App unit :=
  page <- self current_page ;;
  if 0 <? page then
    assign (with_current_page (page - 1)) ;;;
    load_commits false
  else ret tt.

Definition next_page : M App unit :=
  page <- self current_page ;;
  assign (with_current_page (page + 1)) ;;;
  load_commits false.

(** [selection] is the index of the selected row, if any.  The values of
    a row are read back as the strings that were inserted. *)
Definition on_commit_select (selection : option nat) : M App unit :=
  rows <- self tree ;;
  match selection with
  | Some i =>
      match nth_error rows i with
      | Some c =>
          assign (with_selected_commit_hash (Some (hash c))) ;;;
          assign (with_lbl_selection
                    ("Start Point: " ++ hash c ++ " (" ++ take 30 (msg c)
                     ++ "...)" ++ nl
                     ++ "Bundle will include everything AFTER this commit."))
      | None => ret tt
      end
  | None => ret tt
  end.

(** [target_file] is what the save dialog returned, empty when cancelled;
    the default name offered by the dialog does not reach the state. *)
Definition create_bundle_action (target_file : string) : M App unit :=
  g <- self git ;;
  if negb (truthy (repo_path g)) then ret tt
  else
    branch <- self (fun u => text (branch_combo u)) ;;
    if truthy target_file then
      assign (with_status_var "Creating bundle... please wait.") ;;;
      thread_start target_file branch
    else ret tt.

Definition _run_bundle_creation (filepath branch : string) : M App unit :=
  g <- self git ;;
  start <- self selected_commit_hash ;;
  r <- io (create_bundle g start branch filepath) ;;
  if fst r then
    v <- io (verify_bundle g filepath) ;;
    if fst v then
      messagebox showinfo "Success"
        ("Bundle created & Verified successfully!" ++ nl ++ "Saved at: "
         ++ filepath) ;;;
      assign (with_status_var "Bundle ready.")
    else
      messagebox showwarning "Warning"
        ("Bundle created but verification failed:" ++ nl ++ snd v)
  else
    messagebox showerror "Error" ("Failed to create bundle:" ++ nl ++ snd r) ;;;
    assign (with_status_var "Error creating bundle.").

(** [bundle_file] is what the open dialog returns (empty when cancelled)
    and [confirm] the answer to the confirmation box; each is read only if
    the handler gets that far. *)
Definition apply_bundle_action (bundle_file : string) (confirm : bool)
  : M App unit :=
  g <- self git ;;
  if negb (truthy (repo_path g)) then
    messagebox showerror "Error" "Please select a project folder first."
  else if truthy bundle_file then
    assign (with_status_var "Verifying bundle...") ;;;
    v <- io (verify_bundle g bundle_file) ;;
    if negb (fst v) then
      messagebox showerror "Invalid Bundle"
        ("This bundle is corrupted or invalid:" ++ nl ++ snd v)
    else
      answer <- askyesno "Confirm Merge"
        "Bundle is valid. Do you want to MERGE it into your current branch?"
        confirm ;;
      if answer then
        branch <- io (get_current_branch g) ;;
        assign (with_status_var "Merging bundle...") ;;;
        r <- io (fetch_bundle g bundle_file branch) ;;
        if fst r then
          messagebox showinfo "Success" "Changes merged successfully!" ;;;
          refresh_project_info
        else messagebox showerror "Merge Failed" ("Git output:" ++ nl ++ snd r)
      else ret tt
  else ret tt.

Definition load_settings : M App unit :=
  try_pass
    (last <- io (gets (fun s => settings_last_repo (world s))) ;;
     match last with
     | Some path =>
         exists_ <- io (gets (fun s => os_path_exists path (world s))) ;;
         if truthy path && exists_ then
           g <- self git ;;
           r <- io (set_repo_path g path) ;;
           assign (with_git (snd r)) ;;;
           if fst r then
             assign (with_path_var path) ;;;
             refresh_project_info
           else ret tt
         else ret tt
     | None => ret tt
     end).

(** ** The event loop *)

(** What can happen to the window, with what the user supplies: the path
    or file picked in a dialog (empty when cancelled), the branch picked in
    the selector (which shows it before the bound handler runs), the index
    of the row selected, the answer to the confirmation, and the started
    worker that gets to run. *)
Inductive UIEvent :=
| BrowseFolder (path : string)
| ComboboxSelected (branch : string)
| Refresh
| PrevPage
| NextPage
| TreeviewSelect (row : nat)
| CreateBundleClick (target_file : string)
| ApplyBundleClick (bundle_file : string) (confirm : bool)
| WorkerRun (i : nat).

(** What the window lets happen: a disabled button does not fire, the
    read-only selector offers its values only, a row must exist to be
    selected, and only a started worker can run. *)
Definition enabled (ev : UIEvent) (a : App) : bool :=
  match ev with
  | ComboboxSelected b =>
      existsb (String.eqb b) (values (branch_combo (ui a)))
  | PrevPage => match btn_prev (ui a) with normal => true | disabled => false end
  | NextPage => match btn_next (ui a) with normal => true | disabled => false end
  | TreeviewSelect i => (i <? List.length (tree (ui a)))%nat
  | WorkerRun i => (i <? List.length (threads a))%nat
  | _ => true
  end.

Definition handle (ev : UIEvent) : M App unit :=
  match ev with
  | BrowseFolder path => browse_folder path
  | ComboboxSelected b =>
      assign (fun u => with_branch_combo
                         {| values := values (branch_combo u); text := b |} u) ;;;
      load_commits true
  | Refresh => refresh_project_info
  | PrevPage => prev_page
  | NextPage => next_page
  | TreeviewSelect i => on_commit_select (Some i)
  | CreateBundleClick target_file => create_bundle_action target_file
  | ApplyBundleClick bundle_file confirm =>
      apply_bundle_action bundle_file confirm
  | WorkerRun i =>
      pending <- gets threads ;;
      match nth_error pending i with
      | Some (filepath, branch) =>
          modify (fun a => {| ui := ui a; sys := sys a;
                              threads := firstn i pending
                                         ++ skipn (S i) pending |}) ;;;
          _run_bundle_creation filepath branch
      | None => ret tt
      end
  end.

(** An exception that leaves a handler is reported by the toolkit (or
    ends the worker thread) and the loop goes on from the state reached. *)
Definition step (ev : UIEvent) (a : App) : App := snd (handle ev a).

(** [ModernUI()] in a world [w]. *)
Definition startup (w : World) : App :=
  snd (load_settings {| ui := initial_ui;
                        sys := {| world := w; journal := [] |};
                        threads := [] |}).

Inductive reachable : App -> Prop :=
| reachable_startup w : reachable (startup w)
| reachable_step ev a :
    reachable a -> enabled ev a = true -> reachable (step ev a).

Definition page_offset (a : App) : Z :=
  current_page (ui a) * page_size (ui a).

(** The table shows a full page: the last fetch returned [page_size]
    commits. *)
Definition full_page_shown (a : App) : Prop :=
  Z.of_nat (List.length (tree (ui a))) = page_size (ui a).

(** Forward paging can fire only after a full page. *)
Definition forward_only_after_full_page (a : App) : Prop :=
  enabled NextPage a = true -> full_page_shown a.

End Controller.

(** ** Observing strings and journals *)

Fixpoint occurs (c : ascii) (s : string) : bool :=
  match s with
  | EmptyString => false
  | String d s' => Ascii.eqb d c || occurs c s'
  end.


(** The effects a computation added to the journal. *)
Definition new_effects `{Host} (before after : Sys) : list Effect :=
  skipn (List.length (journal before)) (journal after).

(** The argument vectors of the processes in a journal, oldest first. *)
Fixpoint spawned (j : list Effect) : list (list string) :=
  match j with
  | [] => []
  | Spawn argv _ _ :: j' => argv :: spawned j'
  | _ :: j' => spawned j'
  end.

(** ** What is asked of journals and of controller states *)

Definition verify_argv (f : string) : list string :=
  ["git"; "bundle"; "verify"; f].

Definition show_current_argv : list string :=
  ["git"; "branch"; "--show-current"].




(** What [run_git] prints when starting the tool raised. *)
Definition diagnostic (out : string + CompletedProcess) : list Effect :=
  match out with
  | inl e => [Print ("Git Error: " ++ e)]
  | inr _ => []
  end.






(** What holds of the window whether or not a page has been loaded. *)
Record Base (u : ModernUI) : Prop := {
  base_size : page_size u = 15;
  base_values : Forall (fun b => truthy b = true) (values (branch_combo u));
  base_unset : truthy (repo_path (git u)) = false ->
               values (branch_combo u) = [] /\ text (branch_combo u) = "";
  base_no_branch : truthy (text (branch_combo u)) = false ->
                   tree u = [] /\ btn_next u = normal
}.

(** The invariant of the controller: the page number is not negative, and
    once a branch is shown the buttons tell what the last page loaded
    allows. *)
Record Inv (u : ModernUI) : Prop := {
  inv_page : 0 <= current_page u;
  inv_base : Base u;
  inv_next : truthy (text (branch_combo u)) = true ->
             (btn_next u = normal
              <-> Z.of_nat (List.length (tree u)) = page_size u);
  inv_prev : truthy (text (branch_combo u)) = true ->
             (btn_prev u = normal <-> 0 < current_page u)
}.

(** The window after the reset at the top of [load_commits], and after a
    page of commits has been put on display. *)
Definition reset_paging (reset : bool) (u : ModernUI) : ModernUI :=
  if reset then
    with_lbl_selection all_history
      (with_selected_commit_hash None (with_current_page 0 u))
  else u.

Definition show_page (commits : list Commit) (u : ModernUI) : ModernUI :=
  with_btn_next
    (if Z.of_nat (List.length commits) =? page_size u then normal else disabled)
    (with_btn_prev (if 0 <? current_page u then normal else disabled)
       (with_lbl_page ("Page " ++ str_of_int (current_page u + 1))
          (with_tree (tree_populate commits) u))).

(** The text the branch selector shows after a refresh. *)
Definition choose_branch (current : string) (branches : list string)
    (shown : string) : string :=
  if truthy current && existsb (String.eqb current) branches then current
  else match branches with
       | b0 :: _ => b0
       | [] => shown
       end.

(** A handler that keeps a property of the window, raising or not. *)
Definition Maintains `{Host} {A} (P : ModernUI -> Prop) (m : M App A) : Prop :=
  forall a, P (ui a) -> P (ui (snd (m a))).

Definition branches_argv : list string :=
  ["git"; "branch"; "--format=%(refname:short)"].

(** ** The specification's own words, for comparison with the code *)

(** The revision range as the interface describes it: the branch alone
    without a start point, the exclusive range with one. *)
Definition described_rev_range (start_point : option string) (branch : string)
  : string :=
  match start_point with
  | None => branch
  | Some sp => sp ++ ".." ++ branch
  end.


(** ** Two small hosts to run the program on *)

Definition completed (rc : Z) (out err : string) : string + CompletedProcess :=
  inr {| returncode := rc; stdout := out; stderr := err |}.

(** A machine with [git] installed and one repository, [/home/u/proj],
    whose answers are fixed; [bad.bundle] does not verify. *)
Definition scripted_git_run (argv : list string) (cwd : string) (w : unit)
  : (string + CompletedProcess) * unit :=
  let sub := nth 1 argv "" in
  let arg := nth 2 argv "" in
  (if (sub =? "branch")%string then
     if (arg =? "--show-current")%string then completed 0 ("main" ++ nl) ""
     else completed 0 ("dev" ++ nl ++ "main" ++ nl) ""
   else if (sub =? "log")%string then
     completed 0
       ("a1b2c3d|2024-05-01|Ann|Fix a|b parser" ++ nl
        ++ "warning: not a commit line" ++ nl
        ++ "e4f5a6b|2024-04-30|Bob|Initial commit") ""
   else if (sub =? "bundle")%string then
     if (arg =? "create")%string then
       completed 0 "" "Total 3 (delta 0), reused 0 (delta 0)"
     else if (nth 3 argv "" =? "bad.bundle")%string then
       completed 1 "" "error: 'bad.bundle' does not look like a bundle file"
     else completed 0 (nth 3 argv "" ++ " is okay") ""
   else if (sub =? "pull")%string then completed 0 "Fast-forward" ""
   else completed 1 "" "git: unknown command", w).

Definition scripted_git : Host :=
  {| World := unit;
     os_path_isdir := fun p _ => (p =? "/home/u/proj/.git")%string;
     os_path_exists := fun p _ => (p =? "/home/u/proj")%string;
     os_path_join := fun a b => if truthy a then a ++ "/" ++ b else b;
     os_path_basename := fun _ => "proj";
     subprocess_run := scripted_git_run;
     settings_last_repo := fun _ => None |}.

(** The same machine without [git] on the path: starting it raises. *)
Definition no_git : Host :=
  {| World := unit;
     os_path_isdir := fun p _ => (p =? "/home/u/proj/.git")%string;
     os_path_exists := fun p _ => (p =? "/home/u/proj")%string;
     os_path_join := fun a b => if truthy a then a ++ "/" ++ b else b;
     os_path_basename := fun _ => "proj";
     subprocess_run := fun _ _ w =>
       (inl "[Errno 2] No such file or directory: 'git'", w);
     settings_last_repo := fun _ => None |}.

Definition fresh_sys (H : Host) (w : @World H) : @Sys H :=
  {| world := w; journal := [] |}.

Definition proj : GitManager := {| repo_path := "/home/u/proj" |}.

Definition unset : GitManager := {| repo_path := "" |}.

(** A session on the scripted machine: open the project, create a bundle
    (the worker runs), try to apply a bad bundle, apply the good one. *)
Definition session0 : @App scripted_git := @startup scripted_git tt.

Definition session1 : @App scripted_git :=
  @step scripted_git (BrowseFolder "/home/u/proj") session0.

Definition session2 : @App scripted_git :=
  @step scripted_git (CreateBundleClick "out.bundle") session1.

Definition session3 : @App scripted_git :=
  @step scripted_git (WorkerRun 0) session2.

Definition session4 : @App scripted_git :=
  @step scripted_git (ApplyBundleClick "bad.bundle" true) session3.

Definition session5 : @App scripted_git :=
  @step scripted_git (ApplyBundleClick "out.bundle" true) session4.

(** ** More to ask of strings, journals and states *)

Definition starts_clean (s : string) : Prop :=
  match s with
  | EmptyString => True
  | String c _ => isspace c = false
  end.

(** A field of a commit row: no bar and no line break in it. *)
Definition clean_field (f : string) : Prop :=
  occurs bar f = false /\ occurs newline f = false.


(** A gateway computation, or a handler, that adds to the journal only
    effects accepted by [P]. *)
Definition AddsIO `{Host} {A} (P : Effect -> bool) (m : M Sys A) : Prop :=
  forall s, exists seg,
    journal (snd (m s)) = (journal s ++ seg)%list /\ forallb P seg = true.

Definition Adds `{Host} {A} (P : Effect -> bool) (m : M App A) : Prop :=
  forall a, exists seg,
    journal (sys (snd (m a))) = (journal (sys a) ++ seg)%list
    /\ forallb P seg = true.

(** The command lines the program is written to run: the two branch
    queries, the paged log, bundle creation and verification, and the pull
    from a bundle. *)
Definition program_command (argv : list string) : bool :=
  let sub := nth 1 argv "" in
  let n := List.length argv in
  (nth 0 argv "" =? "git")%string
  && (if (sub =? "branch")%string then
        (n =? 3)%nat
        && ((nth 2 argv "" =? "--show-current")%string
            || (nth 2 argv "" =? "--format=%(refname:short)")%string)
      else if (sub =? "log")%string then
        (n =? 7)%nat
        && (nth 3 argv "" =? "--pretty=format:%h|%ad|%an|%s")%string
        && (nth 4 argv "" =? "--date=short")%string
        && String.prefix "-n " (nth 5 argv "")
        && String.prefix "--skip=" (nth 6 argv "")
      else if (sub =? "bundle")%string then
        ((nth 2 argv "" =? "create")%string && (n =? 5)%nat)
        || ((nth 2 argv "" =? "verify")%string && (n =? 4)%nat)
      else if (sub =? "pull")%string then (n =? 4)%nat
      else false).

Definition program_process (e : Effect) : bool :=
  match e with
  | Spawn argv cwd _ => program_command argv && truthy cwd
  | _ => true
  end.

Definition no_write (e : Effect) : bool :=
  match e with WriteSettings _ => false | _ => true end.

(** Only processes and printed lines: no dialog, no settings write, no
    thread. *)
Definition silent (e : Effect) : bool :=
  match e with Spawn _ _ _ | Print _ => true | _ => false end.

(** The path of the latest settings write in a journal. *)
Fixpoint last_written (j : list Effect) : option string :=
  match j with
  | [] => None
  | WriteSettings p :: j' =>
      match last_written j' with
      | Some q => Some q
      | None => Some p
      end
  | _ :: j' => last_written j'
  end.

(** The repository [load_settings] restores at start, if any: the saved
    path when it is not empty, exists, and holds a [.git] directory. *)
Definition restorable `{Host} (w : World) : option string :=
  match settings_last_repo w with
  | Some path =>
      if truthy path && os_path_exists path w
         && os_path_isdir (os_path_join path ".git") w
      then Some path else None
  | None => None
  end.

(** What the header shows for a manager. *)
Definition shown_path (g : GitManager) : string :=
  if truthy (repo_path g) then repo_path g else "No Project Selected".

(** The scripted machine with a settings file that names the project. *)
Definition returning_user : Host :=
  {| World := unit;
     os_path_isdir := fun p _ => (p =? "/home/u/proj/.git")%string;
     os_path_exists := fun p _ => (p =? "/home/u/proj")%string;
     os_path_join := fun a b => if truthy a then a ++ "/" ++ b else b;
     os_path_basename := fun _ => "proj";
     subprocess_run := scripted_git_run;
     settings_last_repo := fun _ => Some "/home/u/proj" |}.

(** The text under the table once a row is chosen. *)
Definition start_point_text (c : Commit) : string :=
  "Start Point: " ++ hash c ++ " (" ++ take 30 (msg c) ++ "...)" ++ nl
  ++ "Bundle will include everything AFTER this commit.".

(** The branch [apply_bundle_action] merges into, from the answer to the
    current-branch query. *)
Definition reported_branch (out : string + CompletedProcess) : string :=
  match out with
  | inl _ => ""
  | inr r => strip (stdout r)
  end.

Definition create_argv (f : string) (start : option string) (branch : string)
  : list string :=
  ["git"; "bundle"; "create"; f; rev_range start branch].

(** The page label agrees with the page number. *)
Definition page_label_current (u : ModernUI) : Prop :=
  lbl_page u = "Page " ++ str_of_int (current_page u + 1).


(** A machine like [scripted_git] whose repository has a long history:
    every page of the log comes back full. *)
Definition long_history_run (argv : list string) (cwd : string) (w : unit)
  : (string + CompletedProcess) * unit :=
  if (nth 1 argv "" =? "log")%string then
    (completed 0
       (String.concat nl
          (repeat "c0ffee1|2024-05-01|Ann|Work in progress" 15)) "", w)
  else scripted_git_run argv cwd w.

Definition long_history : Host :=
  {| World := unit;
     os_path_isdir := fun p _ => (p =? "/home/u/proj/.git")%string;
     os_path_exists := fun p _ => (p =? "/home/u/proj")%string;
     os_path_join := fun a b => if truthy a then a ++ "/" ++ b else b;
     os_path_basename := fun _ => "proj";
     subprocess_run := long_history_run;
     settings_last_repo := fun _ => None |}.

(** The project opened on that machine, and the window one page on. *)
Definition long_opened : @App long_history :=
  @step long_history (BrowseFolder "/home/u/proj") (@startup long_history tt).

Definition long_older : @App long_history :=
  @step long_history NextPage long_opened.


(** ** Facts about the string operations *)

Example split_keeps_empty_fields :
  split bar "a||b|" = ["a"; ""; "b"; ""] /\ split newline "" = [""].
Proof. split; reflexivity. Qed.

Example strip_both_ends : strip (" ab c " ++ nl) = "ab c".
Proof. reflexivity. Qed.

Example str_of_int_decimal :
  str_of_int 15 = "15" /\ str_of_int 0 = "0" /\ str_of_int (-3) = "-3".
Proof. repeat split. Qed.

Lemma split_not_nil sep s : split sep s <> [].
Proof.
  destruct s as [|c s]; simpl; [discriminate|].
  destruct (Ascii.eqb c sep); [discriminate|].
  destruct (split sep s); discriminate.
Qed.



Lemma split_whole sep s : occurs sep s = false -> split sep s = [s].
Proof.
  induction s as [|c s IH]; simpl; intros Hno; [reflexivity|].
  apply orb_false_iff in Hno as [Hc Hs].
  now rewrite Hc, (IH Hs).
Qed.

Lemma truthy_true s : truthy s = true <-> s <> "".
Proof. destruct s; simpl; split; congruence. Qed.

Lemma truthy_false s : truthy s = false <-> s = "".
Proof. destruct s; simpl; split; congruence. Qed.

Lemma tree_populate_id commits : tree_populate commits = commits.
Proof.
  unfold tree_populate.
  enough (forall acc, fold_left (fun rows c => (rows ++ [c])%list) commits acc
                      = (acc ++ commits)%list) as E by apply E.
  induction commits as [|c cs IH]; intros acc; simpl.
  - now rewrite app_nil_r.
  - rewrite IH, <- app_assoc. reflexivity.
Qed.

(** ** The gateway, operation by operation *)

Lemma spawned_app j1 j2 : spawned (j1 ++ j2) = (spawned j1 ++ spawned j2)%list.
Proof.
  induction j1 as [|e j1 IH]; simpl; [reflexivity|].
  destruct e; simpl; now rewrite IH.
Qed.

Lemma new_effects_app `{Host} (s : Sys) w seg :
  new_effects s {| world := w; journal := journal s ++ seg |} = seg.
Proof.
  unfold new_effects; simpl.
  rewrite skipn_app, skipn_all, Nat.sub_diag. reflexivity.
Qed.


Section GatewayFacts.
Context `{Host}.
Implicit Types (self : GitManager) (s : Sys).

Lemma run_git_unset self args s :
  truthy (repo_path self) = false -> run_git self args s = (Ok None, s).
Proof. intros E. unfold run_git. now rewrite E. Qed.

(** With a repository set exactly one process is started, in the
    repository; [None] comes back when starting it raised. *)
Lemma run_git_set self args s :
  truthy (repo_path self) = true ->
  run_git self args s =
  match subprocess_run ("git" :: args) (repo_path self) (world s) with
  | (inr r, w') =>
      (Ok (Some r),
       {| world := w';
          journal := journal s
                     ++ [Spawn ("git" :: args) (repo_path self) (inr r)] |})
  | (inl e, w') =>
      (Ok None,
       {| world := w';
          journal := (journal s
                      ++ [Spawn ("git" :: args) (repo_path self) (inl e)])
                     ++ [Print ("Git Error: " ++ e)] |})
  end.
Proof.
  intros E. unfold run_git, bind, spawn. rewrite E; simpl.
  destruct (subprocess_run _ _ _) as [[e|r] w']; reflexivity.
Qed.

Lemma run_git_ok self args s :
  exists res s', run_git self args s = (Ok res, s').
Proof.
  destruct (truthy (repo_path self)) eqn:E.
  - rewrite run_git_set by exact E.
    destruct (subprocess_run _ _ _) as [[e|r] w']; eauto.
  - rewrite run_git_unset by exact E. eauto.
Qed.

Lemma get_commits_ok self branch skip limit s :
  exists commits s', get_commits self branch skip limit s = (Ok commits, s').
Proof.
  unfold get_commits, bind.
  destruct (run_git_ok self (log_args branch skip limit) s) as (res & s' & E).
  rewrite E. destruct res as [r|]; [|unfold ret; eauto].
  destruct (_ && _); unfold ret; eauto.
Qed.


Lemma get_all_branches_ok self s :
  exists bs s', get_all_branches self s = (Ok bs, s')
                /\ Forall (fun b => truthy b = true) bs.
Proof.
  unfold get_all_branches, bind.
  destruct (run_git_ok self ["branch"; "--format=%(refname:short)"] s)
    as (res & s' & E).
  rewrite E. destruct res as [r|]; [|unfold ret; eauto].
  destruct (returncode r =? 0); unfold ret; [|eauto].
  eexists _, _; split; [reflexivity|].
  apply Forall_forall. intros b Hb.
  apply in_map_iff in Hb as (x & <- & Hx).
  now apply filter_In in Hx as [_ Hx].
Qed.

Lemma get_commits_line_acc acc line :
  get_commits_line acc line = (acc ++ get_commits_line [] line)%list.
Proof.
  unfold get_commits_line.
  destruct (4 <=? List.length (split bar line))%nat; simpl.
  - reflexivity.
  - now rewrite app_nil_r.
Qed.

Lemma get_commits_fold lines acc :
  fold_left get_commits_line lines acc
  = (acc ++ flat_map (get_commits_line []) lines)%list.
Proof.
  revert acc. induction lines as [|l ls IH]; intros acc; simpl.
  - now rewrite app_nil_r.
  - rewrite IH, (get_commits_line_acc acc l), <- app_assoc. reflexivity.
Qed.



End GatewayFacts.

Section GatewayClaims.
Context `{Host}.
Implicit Types (self : GitManager) (s : Sys).



(** C10. When the tool ran, [verify_bundle] and [fetch_bundle] return its
    standard output as the message, whatever it wrote to standard error, so
    a failing run that wrote nothing to standard output gives an empty
    message; [create_bundle] returns standard error unless it is empty, and
    standard output then. *)
Theorem bundle_messages self s r w' :
  truthy (repo_path self) = true ->
  (forall p,
      subprocess_run ["git"; "bundle"; "verify"; p] (repo_path self) (world s)
      = (inr r, w') ->
      fst (verify_bundle self p s) = Ok (returncode r =? 0, stdout r)
      /\ (returncode r <> 0 -> stdout r = "" ->
          fst (verify_bundle self p s) = Ok (false, "")))
  /\ (forall p b,
      subprocess_run ["git"; "pull"; p; b] (repo_path self) (world s)
      = (inr r, w') ->
      fst (fetch_bundle self p b s) = Ok (returncode r =? 0, stdout r)
      /\ (returncode r <> 0 -> stdout r = "" ->
          fst (fetch_bundle self p b s) = Ok (false, "")))
  /\ (forall sp b o,
      subprocess_run ["git"; "bundle"; "create"; o; rev_range sp b]
                     (repo_path self) (world s) = (inr r, w') ->
      fst (create_bundle self sp b o s)
      = Ok (returncode r =? 0,
            if truthy (stderr r) then stderr r else stdout r)).
Proof.
  intros T. split; [|split].
  - intros p E. unfold verify_bundle, bind.
    rewrite run_git_set by exact T. rewrite E. simpl. split; [reflexivity|].
    intros Hrc ->. apply Z.eqb_neq in Hrc. now rewrite Hrc.
  - intros p b E. unfold fetch_bundle, bind.
    rewrite run_git_set by exact T. rewrite E. simpl. split; [reflexivity|].
    intros Hrc ->. apply Z.eqb_neq in Hrc. now rewrite Hrc.
  - intros sp b o E. unfold create_bundle, bind.
    rewrite run_git_set by exact T. rewrite E. reflexivity.
Qed.


(** A log run that exited with another status is not read at all. *)
Lemma get_commits_failed_run self branch skip limit s r w' :
  truthy (repo_path self) = true ->
  subprocess_run ("git" :: log_args branch skip limit) (repo_path self)
                 (world s) = (inr r, w') ->
  returncode r <> 0 ->
  fst (get_commits self branch skip limit s) = Ok [].
Proof.
  intros T E Hrc. unfold get_commits, bind.
  rewrite run_git_set by exact T. rewrite E.
  apply Z.eqb_neq in Hrc. now rewrite Hrc.
Qed.


(** C3 (amended). With a repository set, [create_bundle] starts exactly one
    process, [git bundle create output_path range], whose only revision
    argument is the branch name when the start point is [None] or the
    empty string, and [start_point..branch] when it is a non-empty
    string: the range is the one the interface describes for every start
    point but the empty string. *)
Theorem create_bundle_revision_range self start_point branch output_path s :
  truthy (repo_path self) = true ->
  spawned (new_effects s (snd (create_bundle self start_point branch
                                             output_path s)))
  = [["git"; "bundle"; "create"; output_path; rev_range start_point branch]]
  /\ rev_range start_point branch
     = match start_point with
       | None => branch
       | Some "" => branch
       | Some sp => sp ++ ".." ++ branch
       end
  /\ (start_point <> Some "" ->
      rev_range start_point branch = described_rev_range start_point branch).
Proof.
  intros T. split; [|split].
  - unfold create_bundle, bind. rewrite run_git_set by exact T.
    destruct (subprocess_run _ _ _) as [[e|r] w']; simpl.
    + rewrite <- app_assoc, new_effects_app. reflexivity.
    + rewrite new_effects_app. reflexivity.
  - destruct start_point as [[|c sp]|]; reflexivity.
  - destruct start_point as [[|c sp]|]; intros Ne;
      [congruence|reflexivity|reflexivity].
Qed.

(** With no repository set, [create_bundle], [verify_bundle] and
    [fetch_bundle] start no process and leave the world and the journal as
    they were, but they raise [AttributeError] instead of returning a
    failure; they raise it as well when starting the tool raised (after the
    attempt and the printed diagnostic). *)
Lemma bundle_operations_raise_on_missing_result self s :
  (truthy (repo_path self) = false ->
   forall sp b o,
     create_bundle self sp b o s = (Raised (none_has_no "returncode"), s)
     /\ verify_bundle self o s = (Raised (none_has_no "returncode"), s)
     /\ fetch_bundle self o b s = (Raised (none_has_no "returncode"), s))
  /\ (truthy (repo_path self) = true ->
      (forall argv, exists e,
            fst (subprocess_run argv (repo_path self) (world s)) = inl e) ->
      forall sp b o,
        fst (create_bundle self sp b o s) = Raised (none_has_no "returncode")
        /\ fst (verify_bundle self o s) = Raised (none_has_no "returncode")
        /\ fst (fetch_bundle self o b s) = Raised (none_has_no "returncode")).
Proof.
  split.
  - intros T sp b o. unfold create_bundle, verify_bundle, fetch_bundle, bind.
    rewrite !run_git_unset by exact T. repeat split.
  - intros T Hraise sp b o.
    unfold create_bundle, verify_bundle, fetch_bundle, bind.
    rewrite !run_git_set by exact T.
    repeat split.
    + destruct (Hraise ["git"; "bundle"; "create"; o; rev_range sp b]) as [e E].
      destruct (subprocess_run _ _ _) as [[e'|r] w']; simpl in *;
        [reflexivity|discriminate].
    + destruct (Hraise ["git"; "bundle"; "verify"; o]) as [e E].
      destruct (subprocess_run _ _ _) as [[e'|r] w']; simpl in *;
        [reflexivity|discriminate].
    + destruct (Hraise ["git"; "pull"; o; b]) as [e E].
      destruct (subprocess_run _ _ _) as [[e'|r] w']; simpl in *;
        [reflexivity|discriminate].
Qed.

End GatewayClaims.

(** ** Journals *)












Section JournalOfHandlers.
Context `{Host}.






























End JournalOfHandlers.

Section MergeGate.
Context `{Host}.






End MergeGate.

Section Paging.
Context `{Host}.

Lemma load_commits_unset reset a :
  truthy (repo_path (git (ui a))) = false ->
  load_commits reset a = (Ok tt, a).
Proof.
  intros T. unfold load_commits, bind, self, gets. simpl. now rewrite T.
Qed.

Lemma load_commits_set reset a :
  truthy (repo_path (git (ui a))) = true ->
  load_commits reset a
  = let u0 := reset_paging reset (ui a) in
    if truthy (text (branch_combo (ui a))) then
      match get_commits (git (ui a)) (text (branch_combo (ui a)))
                        (current_page u0 * page_size (ui a))
                        (page_size (ui a)) (sys a) with
      | (Ok commits, s') =>
          (Ok tt, {| ui := show_page commits u0; sys := s';
                     threads := threads a |})
      | (Raised e, s') =>
          (Raised e, {| ui := u0; sys := s'; threads := threads a |})
      end
    else (Ok tt, {| ui := u0; sys := sys a; threads := threads a |}).
Proof.
  destruct a as [u s t]. intros T.
  unfold load_commits, bind, self, gets, assign, modify, io, ret,
    reset_paging, show_page.
  cbn -[get_commits Z.mul Z.add str_of_int] in *. rewrite T.
  destruct reset; cbn -[get_commits Z.mul Z.add str_of_int];
    destruct (truthy (text (branch_combo u)));
    cbn -[get_commits Z.mul Z.add str_of_int]; try reflexivity;
    destruct (get_commits _ _ _ _ _) as [[c|e] s']; reflexivity.
Qed.

Lemma run_git_journal self args s :
  truthy (repo_path self) = true ->
  exists res w' seg,
    run_git self args s
    = (Ok res, {| world := w'; journal := journal s ++ seg |})
    /\ spawned seg = ["git" :: args].
Proof.
  intros T. rewrite run_git_set by exact T.
  destruct (subprocess_run _ _ _) as [[e|r] w'].
  - rewrite <- app_assoc. eexists _, _, _. split; reflexivity.
  - eexists _, _, _. split; reflexivity.
Qed.

Lemma get_commits_journal self branch skip limit s :
  truthy (repo_path self) = true ->
  exists commits w' seg,
    get_commits self branch skip limit s
    = (Ok commits, {| world := w'; journal := journal s ++ seg |})
    /\ spawned seg = ["git" :: log_args branch skip limit].
Proof.
  intros T. unfold get_commits, bind.
  destruct (run_git_journal self (log_args branch skip limit) s T)
    as (res & w' & seg & -> & S).
  destruct res as [r|]; [destruct (_ && _)|]; eexists _, _, _; split;
    try reflexivity; exact S.
Qed.

Lemma get_all_branches_journal self s :
  truthy (repo_path self) = true ->
  exists branches w' seg,
    get_all_branches self s
    = (Ok branches, {| world := w'; journal := journal s ++ seg |})
    /\ spawned seg = [branches_argv]
    /\ Forall (fun b => truthy b = true) branches.
Proof.
  intros T. destruct (get_all_branches_ok self s) as (bs & s' & E & F).
  revert E. unfold get_all_branches, bind.
  destruct (run_git_journal self ["branch"; "--format=%(refname:short)"] s T)
    as (res & w' & seg & -> & S).
  intros E. exists bs, w', seg. repeat split; try assumption.
  destruct res as [r|]; [destruct (_ =? _)|]; injection E as <- <-;
    reflexivity.
Qed.

Lemma get_current_branch_journal self s :
  truthy (repo_path self) = true ->
  exists current w' seg,
    get_current_branch self s
    = (Ok current, {| world := w'; journal := journal s ++ seg |})
    /\ spawned seg = [show_current_argv].
Proof.
  intros T. unfold get_current_branch, bind.
  destruct (run_git_journal self ["branch"; "--show-current"] s T)
    as (res & w' & seg & -> & S).
  destruct res as [r|]; eexists _, _, _; split; try reflexivity; exact S.
Qed.

Lemma load_commits_ok reset a : exists a', load_commits reset a = (Ok tt, a').
Proof.
  destruct (truthy (repo_path (git (ui a)))) eqn:T.
  - rewrite load_commits_set by exact T. cbv zeta.
    destruct (truthy (text (branch_combo (ui a)))); [|eauto].
    destruct (get_commits_ok (git (ui a)) (text (branch_combo (ui a)))
                (current_page (reset_paging reset (ui a)) * page_size (ui a))
                (page_size (ui a)) (sys a)) as (c & s' & ->).
    eauto.
  - rewrite load_commits_unset by exact T. eauto.
Qed.

Lemma refresh_project_info_set a :
  truthy (repo_path (git (ui a))) = true ->
  exists branches current s2 seg a3,
    Forall (fun b => truthy b = true) branches
    /\ journal s2 = (journal (sys a) ++ seg)%list
    /\ spawned seg = [branches_argv; show_current_argv]
    /\ load_commits true
         {| ui := with_branch_combo
                    {| values := branches;
                       text := choose_branch current branches
                                 (text (branch_combo (ui a))) |} (ui a);
            sys := s2; threads := threads a |} = (Ok tt, a3)
    /\ refresh_project_info a
       = (Ok tt, {| ui := with_status_var
                            ("Loaded project: "
                             ++ os_path_basename (repo_path (git (ui a))))
                            (ui a3);
                    sys := sys a3; threads := threads a3 |}).
Proof.
  destruct a as [u s t]. cbn [ui sys threads]. intros T.
  destruct (get_all_branches_journal (git u) s T) as (bs & w1 & seg1 & E1 & S1 & F).
  destruct (get_current_branch_journal (git u)
              {| world := w1; journal := journal s ++ seg1 |} T)
    as (cur & w2 & seg2 & E2 & S2).
  cbn [journal] in E2.
  exists bs, cur, {| world := w2; journal := (journal s ++ seg1) ++ seg2 |},
    (seg1 ++ seg2)%list.
  destruct (load_commits_ok true
              {| ui := with_branch_combo
                         {| values := bs;
                            text := choose_branch cur bs
                                      (text (branch_combo u)) |} u;
                 sys := {| world := w2;
                           journal := (journal s ++ seg1) ++ seg2 |};
                 threads := t |}) as (a3 & E3).
  exists a3. split; [exact F|]. split; [cbn; now rewrite app_assoc|].
  split; [now rewrite spawned_app, S1, S2|]. split; [exact E3|].
  unfold refresh_project_info, bind, self, gets, assign, modify, io, ret.
  cbn -[get_all_branches get_current_branch load_commits].
  rewrite T. cbn -[get_all_branches get_current_branch load_commits].
  rewrite E1. cbn -[get_all_branches get_current_branch load_commits].
  rewrite E2. cbn -[get_all_branches get_current_branch load_commits].
  unfold choose_branch in E3.
  destruct (truthy cur && existsb (String.eqb cur) bs);
    [|destruct bs as [|b0 bs']];
    unfold with_branch_combo in E3 |- *;
    cbn -[get_all_branches get_current_branch load_commits] in E3 |- *;
    rewrite E3; reflexivity.
Qed.

Lemma load_commits_Inv reset a :
  Base (ui a) -> 0 <= current_page (ui a) ->
  Inv (ui (snd (load_commits reset a))).
Proof.
  intros B P. destruct (truthy (repo_path (git (ui a)))) eqn:T.
  - rewrite load_commits_set by exact T. cbv zeta.
    assert (P0 : 0 <= current_page (reset_paging reset (ui a)))
      by (destruct reset; [cbn; lia|exact P]).
    assert (B0 : Base (reset_paging reset (ui a)))
      by (destruct reset; [destruct B; constructor; assumption|exact B]).
    assert (Eb : branch_combo (reset_paging reset (ui a))
                 = branch_combo (ui a)) by (destruct reset; reflexivity).
    assert (Es : page_size (reset_paging reset (ui a)) = page_size (ui a))
      by (destruct reset; reflexivity).
    revert P0 B0 Eb Es. generalize (reset_paging reset (ui a)) as u0.
    intros u0 P0 B0 Eb Es.
    destruct (truthy (text (branch_combo (ui a)))) eqn:Tb.
    + destruct (get_commits_ok (git (ui a)) (text (branch_combo (ui a)))
                  (current_page u0 * page_size (ui a)) (page_size (ui a))
                  (sys a)) as (c & s' & ->).
      cbn [snd ui]. destruct B0 as [Bs Bv Bu Bn].
      constructor; [exact P0|constructor; try assumption| |].
      * cbn. rewrite Eb, Tb. discriminate.
      * intros _. cbn. rewrite tree_populate_id.
        destruct (Z.of_nat (List.length c) =? page_size u0) eqn:Q;
          [apply Z.eqb_eq in Q|apply Z.eqb_neq in Q];
          split; intros; congruence.
      * intros _. cbn.
        destruct (0 <? current_page u0) eqn:Q;
          [apply Z.ltb_lt in Q|apply Z.ltb_ge in Q];
          split; intros; try congruence; lia.
    + cbn [snd ui]. constructor; [exact P0|exact B0| |];
        rewrite Eb, Tb; discriminate.
  - rewrite load_commits_unset by exact T. cbn [snd].
    pose proof (proj2 (base_unset B T)) as Et.
    constructor; [exact P|exact B| |];
      intros Tb; rewrite Et in Tb; discriminate Tb.
Qed.

Lemma Inv_with_status_var v u : Inv u -> Inv (with_status_var v u).
Proof.
  intros [P [Bs Bv Bu Bn] N V].
  constructor; [assumption|constructor; assumption|assumption|assumption].
Qed.

Lemma Inv_with_selected_commit_hash v u :
  Inv u -> Inv (with_selected_commit_hash v u).
Proof.
  intros [P [Bs Bv Bu Bn] N V].
  constructor; [assumption|constructor; assumption|assumption|assumption].
Qed.

Lemma Inv_with_lbl_selection v u : Inv u -> Inv (with_lbl_selection v u).
Proof.
  intros [P [Bs Bv Bu Bn] N V].
  constructor; [assumption|constructor; assumption|assumption|assumption].
Qed.

Lemma Inv_with_path_var v u : Inv u -> Inv (with_path_var v u).
Proof.
  intros [P [Bs Bv Bu Bn] N V].
  constructor; [assumption|constructor; assumption|assumption|assumption].
Qed.

Lemma Inv_with_git g u :
  truthy (repo_path g) = true \/ g = git u -> Inv u -> Inv (with_git g u).
Proof.
  intros G [P [Bs Bv Bu Bn] N V].
  constructor; [assumption|constructor; try assumption|assumption|assumption].
  cbn. intros T. destruct G as [G| ->]; [congruence|auto].
Qed.

Lemma refresh_project_info_unset a :
  truthy (repo_path (git (ui a))) = false ->
  refresh_project_info a = (Ok tt, a).
Proof.
  intros T. unfold refresh_project_info, bind, self, gets. simpl.
  now rewrite T.
Qed.

Lemma Maintains_ret {A} P (x : A) : Maintains P (ret x).
Proof. intros a I. exact I. Qed.

Lemma Maintains_self {A} P (f : ModernUI -> A) : Maintains P (self f).
Proof. intros a I. exact I. Qed.

Lemma Maintains_gets {A} P (f : App -> A) : Maintains P (gets f).
Proof. intros a I. exact I. Qed.

Lemma Maintains_io {A} P (m : M Sys A) : Maintains P (io m).
Proof. intros a I. unfold io. destruct (m (sys a)). exact I. Qed.

Lemma Maintains_modify P (f : App -> App) :
  (forall a, ui (f a) = ui a) -> Maintains P (modify f).
Proof. intros E a I. cbn. now rewrite E. Qed.

Lemma Maintains_assign (P : ModernUI -> Prop) f :
  (forall u, P u -> P (f u)) -> Maintains P (assign f).
Proof. intros Hf a I. cbn. now apply Hf. Qed.

Lemma Maintains_bind {A B} P (m : M App A) (k : A -> M App B) :
  Maintains P m -> (forall x, Maintains P (k x)) -> Maintains P (bind m k).
Proof.
  intros Hm Hk a I. unfold bind. specialize (Hm a I).
  destruct (m a) as [[x|e] a1]; cbn [snd] in *; [|exact Hm].
  now apply Hk.
Qed.

Lemma Maintains_try_pass P (m : M App unit) :
  Maintains P m -> Maintains P (try_pass m).
Proof.
  intros Hm a I. unfold try_pass. specialize (Hm a I).
  destruct (m a) as [[x|e] a1]; exact Hm.
Qed.

(** Storing the manager that [set_repo_path] returned, then going on. *)
Lemma Maintains_set_repo_path (P : ModernUI -> Prop) path
    (k : bool * GitManager -> M App unit) :
  (forall u, P u -> P (with_git {| repo_path := path |} u)) ->
  (forall u, P u -> P (with_git (git u) u)) ->
  (forall r, Maintains P (k r)) ->
  Maintains P (g <- self git ;;
               r <- io (set_repo_path g path) ;;
               assign (with_git (snd r)) ;;; k r).
Proof.
  intros Hset Hsame Hk a I.
  unfold bind, self, gets, io, set_repo_path, is_git_repo, assign, modify, ret.
  cbn. destruct (os_path_isdir _ _); cbn; apply Hk; cbn; auto.
Qed.

Ltac maintains_using known :=
  repeat first
    [ known | apply Maintains_ret | apply Maintains_self | apply Maintains_gets
    | apply Maintains_io | apply Maintains_try_pass
    | apply Maintains_modify; reflexivity
    | apply Maintains_assign; intros ? ?;
      solve [ apply Inv_with_status_var; assumption
            | apply Inv_with_lbl_selection; assumption
            | apply Inv_with_selected_commit_hash; assumption
            | apply Inv_with_path_var; assumption
            | cbn; assumption ]
    | apply Maintains_bind; [|intros]
    | match goal with
      | |- Maintains _ (if ?c then _ else _) => destruct c eqn:?
      | |- Maintains _ (match ?x with _ => _ end) => destruct x eqn:?
      end ].

Ltac maintains := maintains_using fail.

Lemma Inv_refresh_project_info : Maintains Inv refresh_project_info.
Proof.
  intros a I. destruct (truthy (repo_path (git (ui a)))) eqn:T.
  - destruct (refresh_project_info_set a T)
      as (bs & cur & s2 & seg & a3 & F & _ & _ & E3 & ->).
    cbn [snd ui]. apply Inv_with_status_var.
    apply (f_equal snd) in E3. cbn [snd] in E3. subst a3.
    destruct I as [P [Bs Bv Bu Bn] N V].
    apply load_commits_Inv; [|exact P].
    constructor; cbn; try assumption.
    + congruence.
    + unfold choose_branch.
      destruct (truthy cur && existsb (String.eqb cur) bs) eqn:C.
      * apply andb_true_iff in C as [C _]. congruence.
      * destruct bs as [|b0 bs']; [exact Bn|].
        inversion F; subst. congruence.
  - rewrite refresh_project_info_unset by exact T. exact I.
Qed.

Lemma Inv_on_commit_select sel : Maintains Inv (on_commit_select sel).
Proof. unfold on_commit_select. maintains. Qed.

Lemma Inv_create_bundle_action target :
  Maintains Inv (create_bundle_action target).
Proof. unfold create_bundle_action, thread_start. maintains. Qed.

Lemma Inv_run_bundle_creation f b : Maintains Inv (_run_bundle_creation f b).
Proof. unfold _run_bundle_creation, messagebox. maintains. Qed.

Lemma Inv_apply_bundle_action f c : Maintains Inv (apply_bundle_action f c).
Proof.
  unfold apply_bundle_action, messagebox, askyesno.
  maintains_using ltac:(apply Inv_refresh_project_info).
Qed.

Lemma Inv_browse_folder path : Maintains Inv (browse_folder path).
Proof.
  unfold browse_folder. destruct (truthy path) eqn:Tp; [|apply Maintains_ret].
  apply (Maintains_set_repo_path (P := Inv)).
  - intros u I. apply Inv_with_git; [left; exact Tp|exact I].
  - intros u I. apply Inv_with_git; [right; reflexivity|exact I].
  - intros r. unfold save_settings, messagebox.
    maintains_using ltac:(apply Inv_refresh_project_info).
Qed.

Lemma Inv_load_settings : Maintains Inv load_settings.
Proof.
  unfold load_settings. apply Maintains_try_pass.
  apply Maintains_bind; [apply Maintains_io|intros [path|]];
    [|apply Maintains_ret].
  apply Maintains_bind; [apply Maintains_io|intros ex].
  destruct (truthy path) eqn:Tp; cbn [andb]; [|apply Maintains_ret].
  destruct ex; [|apply Maintains_ret].
  apply (Maintains_set_repo_path (P := Inv)).
  - intros u I. apply Inv_with_git; [left; exact Tp|exact I].
  - intros u I. apply Inv_with_git; [right; reflexivity|exact I].
  - intros r. maintains_using ltac:(apply Inv_refresh_project_info).
Qed.

Lemma Inv_prev_page : Maintains Inv prev_page.
Proof.
  intros a I. unfold prev_page, bind, self, gets, assign, modify.
  cbn -[load_commits]. destruct (0 <? current_page (ui a)) eqn:Q; [|exact I].
  apply Z.ltb_lt in Q.
  apply load_commits_Inv; cbn; [|lia].
  destruct I as [P [Bs Bv Bu Bn] N V]. constructor; assumption.
Qed.

Lemma Inv_next_page : Maintains Inv next_page.
Proof.
  intros a I. unfold next_page, bind, self, gets, assign, modify.
  cbn -[load_commits].
  destruct I as [P [Bs Bv Bu Bn] N V].
  apply load_commits_Inv; cbn; [constructor; assumption|lia].
Qed.

Lemma Inv_initial_ui : Inv initial_ui.
Proof.
  constructor; cbn; [lia| |discriminate|discriminate].
  constructor; cbn; auto.
Qed.

(** A branch the selector offers is not empty, and there is a repository
    behind it. *)
Lemma offered_branch a b :
  Inv (ui a) -> enabled (ComboboxSelected b) a = true ->
  truthy b = true /\ truthy (repo_path (git (ui a))) = true.
Proof.
  intros [P [Bs Bv Bu Bn] N V] En. cbn in En.
  apply existsb_exists in En as (x & Hin & Ex).
  apply String.eqb_eq in Ex. subst x. split.
  - rewrite Forall_forall in Bv. auto.
  - destruct (truthy (repo_path (git (ui a)))); [reflexivity|].
    destruct (Bu eq_refl) as [Ev _]. rewrite Ev in Hin. destruct Hin.
Qed.

Lemma Inv_step ev a :
  Inv (ui a) -> enabled ev a = true -> Inv (ui (step ev a)).
Proof.
  intros I En. unfold step. destruct ev; cbn [handle].
  - now apply Inv_browse_folder.
  - destruct (offered_branch _ _ I En) as [Tb T].
    unfold bind, assign, modify. cbn -[load_commits].
    destruct I as [P [Bs Bv Bu Bn] N V].
    apply load_commits_Inv; cbn; [|exact P].
    constructor; cbn; try assumption; congruence.
  - now apply Inv_refresh_project_info.
  - now apply Inv_prev_page.
  - now apply Inv_next_page.
  - now apply Inv_on_commit_select.
  - now apply Inv_create_bundle_action.
  - now apply Inv_apply_bundle_action.
  - clear En. revert a I.
    change (Maintains Inv (handle (WorkerRun i))). cbn [handle].
    apply Maintains_bind; [apply Maintains_gets|intros pending].
    destruct (nth_error pending i) as [[f b]|]; [|apply Maintains_ret].
    apply Maintains_bind; [apply Maintains_modify; reflexivity|intros].
    apply Inv_run_bundle_creation.
Qed.

Lemma reachable_Inv a : reachable a -> Inv (ui a).
Proof.
  induction 1 as [w|ev a R IH En].
  - apply Inv_load_settings. exact Inv_initial_ui.
  - now apply Inv_step.
Qed.

Lemma load_commits_fields reset a :
  let a' := snd (load_commits reset a) in
  page_size (ui a') = page_size (ui a)
  /\ git (ui a') = git (ui a)
  /\ branch_combo (ui a') = branch_combo (ui a)
  /\ (reset = false ->
      current_page (ui a') = current_page (ui a)
      /\ selected_commit_hash (ui a') = selected_commit_hash (ui a))
  /\ (reset = true -> truthy (repo_path (git (ui a))) = true ->
      current_page (ui a') = 0 /\ selected_commit_hash (ui a') = None).
Proof.
  destruct (truthy (repo_path (git (ui a)))) eqn:T.
  - rewrite load_commits_set by exact T. cbv zeta.
    destruct (truthy (text (branch_combo (ui a)))).
    + destruct (get_commits_ok (git (ui a)) (text (branch_combo (ui a)))
                  (current_page (reset_paging reset (ui a)) * page_size (ui a))
                  (page_size (ui a)) (sys a)) as (c & s' & ->).
      destruct reset; cbn; repeat split; congruence.
    + destruct reset; cbn; repeat split; congruence.
  - rewrite load_commits_unset by exact T. cbn.
    repeat split; congruence.
Qed.

(** What [load_commits] puts on display is what the fetch returned, and
    the forward button is left enabled exactly for a full page. *)
Lemma load_commits_shows reset a :
  truthy (repo_path (git (ui a))) = true ->
  truthy (text (branch_combo (ui a))) = true ->
  let a' := snd (load_commits reset a) in
  exists commits s',
    get_commits (git (ui a)) (text (branch_combo (ui a)))
                (current_page (ui a') * page_size (ui a)) (page_size (ui a))
                (sys a) = (Ok commits, s')
    /\ sys a' = s'
    /\ tree (ui a') = commits
    /\ (btn_next (ui a') = normal
        <-> Z.of_nat (List.length commits) = page_size (ui a))
    /\ (btn_prev (ui a') = normal <-> 0 < current_page (ui a')).
Proof.
  intros T Tb. rewrite load_commits_set by exact T. cbv zeta. rewrite Tb.
  destruct (get_commits_ok (git (ui a)) (text (branch_combo (ui a)))
              (current_page (reset_paging reset (ui a)) * page_size (ui a))
              (page_size (ui a)) (sys a)) as (c & s' & E).
  rewrite E. exists c, s'.
  assert (Es : page_size (reset_paging reset (ui a)) = page_size (ui a))
    by (destruct reset; reflexivity).
  cbn. rewrite tree_populate_id, Es. repeat split; try assumption.
  - destruct (Z.of_nat (List.length c) =? page_size (ui a)) eqn:Q;
      [apply Z.eqb_eq in Q; auto|discriminate].
  - intros Q. apply Z.eqb_eq in Q. now rewrite Q.
  - destruct (0 <? current_page (reset_paging reset (ui a))) eqn:Q;
      [apply Z.ltb_lt in Q; auto|discriminate].
  - intros Q. apply Z.ltb_lt in Q. now rewrite Q.
Qed.

Lemma page_zero_refresh_project_info :
  Maintains (fun u => current_page u = 0) refresh_project_info.
Proof.
  intros a Z0. destruct (truthy (repo_path (git (ui a)))) eqn:T.
  - destruct (refresh_project_info_set a T)
      as (bs & cur & s2 & seg & a3 & _ & _ & _ & E3 & ->).
    apply (f_equal snd) in E3. cbn [snd] in E3. subst a3.
    cbn -[load_commits].
    match goal with
    | |- current_page (ui (snd (load_commits true ?x))) = 0 =>
        destruct (load_commits_fields true x) as (_ & _ & _ & _ & Er)
    end.
    now apply Er.
  - rewrite refresh_project_info_unset by exact T. exact Z0.
Qed.

Lemma startup_page_zero w : current_page (ui (startup w)) = 0.
Proof.
  unfold startup.
  apply (@Maintains_try_pass (fun u => current_page u = 0));
    [|reflexivity].
  apply Maintains_bind; [apply Maintains_io|intros [path|]];
    [|apply Maintains_ret].
  apply Maintains_bind; [apply Maintains_io|intros ex].
  destruct (truthy path && ex); [|apply Maintains_ret].
  apply (Maintains_set_repo_path (P := fun u => current_page u = 0));
    try (intros u E; exact E).
  intros r. maintains_using ltac:(apply page_zero_refresh_project_info).
Qed.

(** C6 (amended). The page offset starts at 0 and, in every reachable
    state, is a non-negative multiple of the page size, 15.  The handler of
    the forward button adds one page to it whenever it runs; the handler of
    the backward button subtracts one page and stops at 0.  Once a branch is
    shown, the forward button is enabled only if the page on display (the
    last one fetched) is full, and the backward button is disabled exactly
    at offset 0; [load_commits] sets both from the page it fetched. *)
Theorem paging_offset_invariant :
  (forall w, page_offset (startup w) = 0)
  /\ (forall a,
         reachable a ->
         page_size (ui a) = 15
         /\ (exists k, 0 <= k /\ page_offset a = k * page_size (ui a))
         /\ page_offset (step NextPage a) = page_offset a + page_size (ui a)
         /\ page_offset (step PrevPage a)
            = Z.max 0 (page_offset a - page_size (ui a))
         /\ (truthy (text (branch_combo (ui a))) = true ->
             forward_only_after_full_page a
             /\ (enabled PrevPage a = false <-> page_offset a = 0)))
  /\ (forall reset a,
         truthy (repo_path (git (ui a))) = true ->
         truthy (text (branch_combo (ui a))) = true ->
         let a' := snd (load_commits reset a) in
         exists commits s',
           get_commits (git (ui a)) (text (branch_combo (ui a)))
                       (page_offset a') (page_size (ui a)) (sys a)
           = (Ok commits, s')
           /\ tree (ui a') = commits
           /\ (enabled NextPage a' = true
               <-> Z.of_nat (List.length commits) = page_size (ui a))).
Proof.
  split; [|split].
  - intros w. unfold page_offset. now rewrite startup_page_zero.
  - intros a R. pose proof (reachable_Inv R) as [P [Bs Bv Bu Bn] N V].
    unfold page_offset. split; [exact Bs|]. split; [eauto|]. split; [|split].
    + unfold step, next_page, bind, self, gets, assign, modify.
      cbn -[load_commits].
      match goal with
      | |- context [load_commits false ?x] =>
          destruct (load_commits_fields false x) as (Es & _ & _ & Ep & _)
      end.
      destruct (Ep eq_refl) as [Ec _]. rewrite Es, Ec. cbn. ring.
    + unfold step, prev_page, bind, self, gets, assign, modify.
      cbn -[load_commits].
      destruct (0 <? current_page (ui a)) eqn:Q.
      * apply Z.ltb_lt in Q. cbn -[load_commits].
        match goal with
        | |- context [load_commits false ?x] =>
            destruct (load_commits_fields false x) as (Es & _ & _ & Ep & _)
        end.
        destruct (Ep eq_refl) as [Ec _]. rewrite Es, Ec. cbn.
        rewrite Bs. lia.
      * apply Z.ltb_ge in Q. cbn. rewrite Bs. lia.
    + intros Tb. specialize (N Tb). specialize (V Tb).
      unfold forward_only_after_full_page, full_page_shown. cbn. split.
      * destruct (btn_next (ui a)); [intros _; now apply N|discriminate].
      * rewrite Bs. destruct (btn_prev (ui a)).
        -- split; [discriminate|]. intros Z0.
           assert (0 < current_page (ui a)) by now apply V. lia.
        -- split; [|reflexivity]. intros _.
           destruct (Z_lt_le_dec 0 (current_page (ui a))) as [Q|Q]; [|lia].
           apply V in Q. discriminate Q.
  - intros reset a T Tb a'.
    destruct (load_commits_shows reset a T Tb) as (c & s' & E & _ & Et & En & _).
    fold a' in E, Et, En. exists c, s'. unfold page_offset.
    destruct (load_commits_fields reset a) as (Es & _). fold a' in Es.
    rewrite Es. repeat split; try assumption.
    + cbn. intros Q. apply En. now destruct (btn_next (ui a')).
    + cbn. intros Q. apply En in Q. now rewrite Q.
Qed.

Lemma new_effects_extends (s s' : Sys) seg :
  journal s' = (journal s ++ seg)%list -> new_effects s s' = seg.
Proof.
  intros E. unfold new_effects. rewrite E, skipn_app, skipn_all, Nat.sub_diag.
  reflexivity.
Qed.

(** A reset load: page 0, no start point, and the only process started is
    the log of the branch shown, from offset 0. *)
Lemma load_commits_reset a :
  truthy (repo_path (git (ui a))) = true ->
  let a' := snd (load_commits true a) in
  current_page (ui a') = 0
  /\ selected_commit_hash (ui a') = None
  /\ exists seg,
      journal (sys a') = (journal (sys a) ++ seg)%list
      /\ spawned seg
         = if truthy (text (branch_combo (ui a))) then
             ["git" :: log_args (text (branch_combo (ui a))) 0
                                (page_size (ui a))]
           else [].
Proof.
  intros T. rewrite load_commits_set by exact T. cbv zeta.
  destruct (truthy (text (branch_combo (ui a)))).
  - destruct (get_commits_journal (git (ui a)) (text (branch_combo (ui a)))
                (current_page (reset_paging true (ui a)) * page_size (ui a))
                (page_size (ui a)) (sys a) T) as (c & w' & seg & E & S).
    rewrite E. cbn. repeat split. exists seg. split; [reflexivity|exact S].
  - cbn. repeat split. exists []. now rewrite app_nil_r.
Qed.

Lemma refresh_project_info_resets a :
  truthy (repo_path (git (ui a))) = true ->
  let a' := snd (refresh_project_info a) in
  git (ui a') = git (ui a)
  /\ page_size (ui a') = page_size (ui a)
  /\ current_page (ui a') = 0
  /\ selected_commit_hash (ui a') = None
  /\ exists seg,
      journal (sys a') = (journal (sys a) ++ seg)%list
      /\ spawned seg
         = ([branches_argv; show_current_argv]
            ++ if truthy (text (branch_combo (ui a'))) then
                 ["git" :: log_args (text (branch_combo (ui a'))) 0
                                    (page_size (ui a))]
               else [])%list.
Proof.
  intros T.
  destruct (refresh_project_info_set a T)
    as (bs & cur & s2 & seg & a3 & _ & Ej & Sj & E3 & ->).
  apply (f_equal snd) in E3. cbn [snd] in E3. subst a3.
  cbn -[load_commits].
  match goal with
  | |- context [load_commits true ?x] =>
      destruct (load_commits_fields true x) as (Es & Eg & Ec & _ & _);
      destruct (@load_commits_reset x T) as (Ep & Eh & seg3 & Ej3 & S3)
  end.
  cbn -[load_commits] in *. rewrite Eg, Es, Ep, Eh, Ec. repeat split.
  exists (seg ++ seg3)%list. split.
  - now rewrite Ej3, Ej, app_assoc.
  - now rewrite spawned_app, Sj, S3.
Qed.

Lemma browse_folder_repository a path :
  truthy path = true ->
  os_path_isdir (os_path_join path ".git") (world (sys a)) = true ->
  browse_folder path a
  = refresh_project_info
      {| ui := with_path_var path (with_git {| repo_path := path |} (ui a));
         sys := {| world := world (sys a);
                   journal := journal (sys a) ++ [WriteSettings path] |};
         threads := threads a |}.
Proof.
  intros Tp Dir. unfold browse_folder. rewrite Tp.
  unfold bind, self, gets, io, set_repo_path, is_git_repo, assign, modify,
    ret, bind, save_settings, try_pass, io, emit, modify.
  cbn -[refresh_project_info]. rewrite Dir. reflexivity.
Qed.

(** C7. In every reachable state, choosing a branch [b] from the selector
    leaves the controller at page offset 0 with no start point, showing
    [b], and the one process started is the log of [b] from offset 0;
    choosing a folder that is a repository leaves it on that repository at
    page offset 0 with no start point, and the log it starts, for the
    branch then shown, is from offset 0 as well. *)
Theorem selection_resets_paging a :
  reachable a ->
  (forall b,
      enabled (ComboboxSelected b) a = true ->
      let a' := step (ComboboxSelected b) a in
      page_offset a' = 0
      /\ selected_commit_hash (ui a') = None
      /\ text (branch_combo (ui a')) = b
      /\ spawned (new_effects (sys a) (sys a')) = ["git" :: log_args b 0 15])
  /\ (forall path,
         truthy path = true ->
         os_path_isdir (os_path_join path ".git") (world (sys a)) = true ->
         let a' := step (BrowseFolder path) a in
         repo_path (git (ui a')) = path
         /\ page_offset a' = 0
         /\ selected_commit_hash (ui a') = None
         /\ spawned (new_effects (sys a) (sys a'))
            = ([branches_argv; show_current_argv]
               ++ if truthy (text (branch_combo (ui a'))) then
                    ["git" :: log_args (text (branch_combo (ui a'))) 0 15]
                  else [])%list).
Proof.
  intros R. pose proof (reachable_Inv R) as I. split.
  - intros b En a'. destruct (offered_branch _ _ I En) as [Tb T].
    subst a'. unfold step, page_offset. cbn [handle].
    unfold bind, assign, modify. cbn -[load_commits new_effects].
    match goal with
    | |- context [load_commits true ?x] =>
        destruct (load_commits_fields true x) as (_ & _ & Ec & _ & _);
        destruct (@load_commits_reset x T) as (Ep & Eh & seg & Ej & S)
    end.
    cbn -[load_commits new_effects] in *. rewrite Ep, Eh, Ec.
    cbn -[load_commits new_effects].
    repeat split.
    rewrite (new_effects_extends _ _ _ Ej), S, Tb.
    now rewrite (base_size (inv_base I)).
  - intros path Tp Dir a'. subst a'. unfold step, page_offset.
    cbn [handle]. rewrite (browse_folder_repository _ _ Tp Dir).
    match goal with
    | |- context [refresh_project_info ?x] =>
        destruct (@refresh_project_info_resets x Tp)
          as (Eg & Es & Ep & Eh & seg & Ej & S)
    end.
    cbn -[refresh_project_info new_effects] in *. rewrite Eg, Ep, Eh.
    repeat split.
    rewrite <- app_assoc in Ej.
    rewrite (new_effects_extends _ _ _ Ej). cbn [spawned app].
    rewrite S, (base_size (inv_base I)). reflexivity.
Qed.

End Paging.

(** ** The program run on the two hosts *)

Lemma session1_reachable : @reachable scripted_git session1.
Proof.
  unfold session1. apply reachable_step; [|reflexivity].
  apply reachable_startup.
Qed.

Lemma session5_reachable : @reachable scripted_git session5.
Proof.
  unfold session5, session4, session3, session2.
  repeat (apply reachable_step; [|vm_compute; reflexivity]).
  apply reachable_startup.
Qed.

Example session5_processes :
  spawned (journal (sys session5))
  = [branches_argv; show_current_argv; "git" :: log_args "main" 0 15;
     ["git"; "bundle"; "create"; "out.bundle"; "main"];
     verify_argv "out.bundle"; verify_argv "bad.bundle";
     verify_argv "out.bundle"; show_current_argv;
     ["git"; "pull"; "out.bundle"; "main"];
     branches_argv; show_current_argv; "git" :: log_args "main" 0 15].
Proof. vm_compute. reflexivity. Qed.


(** C2 (the code at the failing inputs). On a manager with no repository
    the three bundle operations leave the system untouched and raise
    [AttributeError]; on a machine without [git] they raise it too. *)
Theorem bundle_operations_raise_without_result :
  @create_bundle scripted_git unset None "main" "out.bundle"
                 (fresh_sys scripted_git tt)
  = (Raised (none_has_no "returncode"), fresh_sys scripted_git tt)
  /\ @verify_bundle scripted_git unset "out.bundle" (fresh_sys scripted_git tt)
     = (Raised (none_has_no "returncode"), fresh_sys scripted_git tt)
  /\ @fetch_bundle scripted_git unset "out.bundle" "main"
                   (fresh_sys scripted_git tt)
     = (Raised (none_has_no "returncode"), fresh_sys scripted_git tt)
  /\ fst (@create_bundle no_git proj None "main" "out.bundle"
                         (fresh_sys no_git tt))
     = Raised (none_has_no "returncode")
  /\ fst (@verify_bundle no_git proj "out.bundle" (fresh_sys no_git tt))
     = Raised (none_has_no "returncode")
  /\ fst (@fetch_bundle no_git proj "out.bundle" "main" (fresh_sys no_git tt))
     = Raised (none_has_no "returncode").
Proof.
  destruct (@bundle_operations_raise_on_missing_result scripted_git unset
              (fresh_sys scripted_git tt)) as [U _].
  destruct (U eq_refl None "main" "out.bundle") as (C & V & F).
  destruct (@bundle_operations_raise_on_missing_result no_git proj
              (fresh_sys no_git tt)) as [_ R].
  assert (Hraise : forall argv, exists e,
             fst (@subprocess_run no_git argv (repo_path proj)
                                  (world (fresh_sys no_git tt))) = inl e)
    by (intros argv; eexists; reflexivity).
  destruct (R eq_refl Hraise None "main" "out.bundle") as (C' & V' & F').
  repeat split; assumption.
Qed.

(** C3, as written, fails for the empty string: it is a start point that
    is present, yet the only revision argument is the branch. *)
Lemma create_bundle_empty_start_point :
  spawned (journal (snd (@create_bundle scripted_git proj (Some "") "main"
                                        "out.bundle"
                                        (fresh_sys scripted_git tt))))
  = [["git"; "bundle"; "create"; "out.bundle"; "main"]]
  /\ described_rev_range (Some "") "main" = "..main"
  /\ rev_range (Some "") "main" <> described_rev_range (Some "") "main".
Proof.
  split; [vm_compute; reflexivity|]. split; [reflexivity|].
  cbn. discriminate.
Qed.

Lemma create_bundle_revision_range_witness :
  spawned (new_effects (fresh_sys scripted_git tt)
             (snd (@create_bundle scripted_git proj (Some "a1b2c3d") "main"
                                  "out.bundle" (fresh_sys scripted_git tt))))
  = [["git"; "bundle"; "create"; "out.bundle"; "a1b2c3d..main"]].
Proof.
  exact (proj1 (@create_bundle_revision_range scripted_git proj
                  (Some "a1b2c3d") "main" "out.bundle"
                  (fresh_sys scripted_git tt) eq_refl)).
Defined.



Lemma selection_resets_paging_witness :
  page_offset (@step scripted_git (ComboboxSelected "dev") session1) = 0
  /\ selected_commit_hash
       (ui (@step scripted_git (ComboboxSelected "dev") session1)) = None
  /\ text (branch_combo
             (ui (@step scripted_git (ComboboxSelected "dev") session1)))
     = "dev"
  /\ spawned (new_effects (sys session1)
                (sys (@step scripted_git (ComboboxSelected "dev") session1)))
     = ["git" :: log_args "dev" 0 15].
Proof.
  exact (proj1 (@selection_resets_paging scripted_git session1
                  session1_reachable) "dev" eq_refl).
Defined.



Lemma bundle_messages_witness :
  fst (@verify_bundle scripted_git proj "bad.bundle" (fresh_sys scripted_git tt))
  = Ok (false, "").
Proof.
  destruct (@bundle_messages scripted_git proj (fresh_sys scripted_git tt)
              {| returncode := 1; stdout := "";
                 stderr := "error: 'bad.bundle' does not look like a bundle file" |}
              tt eq_refl) as [V _].
  destruct (V "bad.bundle" eq_refl) as [_ E].
  apply E; [discriminate|reflexivity].
Defined.

(** C6, as written, fails before any page is loaded: on start with no
    project, the forward button is enabled; the handler takes the offset
    from 0 to 15 although nothing was fetched (no process in the journal,
    an empty table), let alone a full page. *)
Lemma forward_paging_before_any_fetch :
  @reachable scripted_git session0
  /\ ~ forward_only_after_full_page session0
  /\ page_offset session0 = 0
  /\ page_offset (@step scripted_git NextPage session0) = 15
  /\ journal (sys (@step scripted_git NextPage session0)) = [].
Proof.
  split; [apply reachable_startup|]. split; [|repeat split].
  intros Gate. specialize (Gate eq_refl). discriminate Gate.
Qed.

Lemma paging_offset_invariant_witness :
  page_size (ui session1) = 15
  /\ page_offset (@step scripted_git NextPage session1)
     = page_offset session1 + 15
  /\ (@enabled scripted_git PrevPage session1 = false
      <-> page_offset session1 = 0).
Proof.
  destruct (@paging_offset_invariant scripted_git) as (_ & Hr & _).
  destruct (Hr session1 session1_reachable) as (Es & _ & En & _ & Hb).
  split; [exact Es|]. split; [exact En|].
  exact (proj2 (Hb eq_refl)).
Defined.

(** ** More on the string operations *)

Lemma split_pieces_without_sep sep s :
  Forall (fun p => occurs sep p = false) (split sep s).
Proof.
  induction s as [|c s IH]; simpl.
  - repeat constructor.
  - destruct (Ascii.eqb c sep) eqn:E.
    + constructor; [reflexivity|exact IH].
    + destruct (split sep s) as [|p ps]; [repeat constructor; simpl; now rewrite E|].
      inversion IH; subst. constructor; [simpl; now rewrite E|assumption].
Qed.

Lemma split_pieces_keep_absent c sep s :
  occurs c s = false -> Forall (fun p => occurs c p = false) (split sep s).
Proof.
  induction s as [|d s IH]; simpl; intros A.
  - repeat constructor.
  - apply orb_false_iff in A as [Ad As]. specialize (IH As).
    destruct (Ascii.eqb d sep).
    + constructor; [reflexivity|exact IH].
    + destruct (split sep s) as [|p ps];
        [repeat constructor; simpl; now rewrite Ad|].
      inversion IH; subst. constructor; [simpl|assumption].
      rewrite Ad. assumption.
Qed.

Lemma lstrip_keeps_absent c s : occurs c s = false -> occurs c (lstrip s) = false.
Proof.
  induction s as [|d s IH]; simpl; intros A; [reflexivity|].
  apply orb_false_iff in A as [Ad As].
  destruct (isspace d); [auto|]. simpl. now rewrite Ad, As.
Qed.

Lemma rstrip_keeps_absent c s : occurs c s = false -> occurs c (rstrip s) = false.
Proof.
  induction s as [|d s IH]; simpl; intros A; [reflexivity|].
  apply orb_false_iff in A as [Ad As]. specialize (IH As).
  destruct (rstrip s) as [|e r].
  - destruct (isspace d); simpl; [reflexivity|now rewrite Ad].
  - simpl in *. now rewrite Ad, IH.
Qed.

Lemma strip_keeps_absent c s : occurs c s = false -> occurs c (strip s) = false.
Proof. intros A. apply rstrip_keeps_absent, lstrip_keeps_absent, A. Qed.

Lemma lstrip_starts_clean s : starts_clean (lstrip s).
Proof.
  induction s as [|c s IH]; simpl; [exact I|].
  destruct (isspace c) eqn:E; [exact IH|exact E].
Qed.

Lemma rstrip_starts_clean s : starts_clean s -> starts_clean (rstrip s).
Proof.
  destruct s as [|c s]; simpl; intros C; [exact I|].
  destruct (rstrip s); [rewrite C|]; exact C.
Qed.

Lemma lstrip_fixed s : starts_clean s -> lstrip s = s.
Proof. destruct s as [|c s]; simpl; intros C; [reflexivity|now rewrite C]. Qed.

Lemma rstrip_idempotent s : rstrip (rstrip s) = rstrip s.
Proof.
  induction s as [|c s IH]; simpl; [reflexivity|].
  destruct (rstrip s) as [|d r] eqn:R.
  - destruct (isspace c) eqn:E; simpl; [reflexivity|now rewrite E].
  - simpl. simpl in IH. destruct (rstrip r) as [|e r'] eqn:R'.
    + destruct (isspace d); [discriminate IH|]. now rewrite IH.
    + now rewrite IH.
Qed.

Lemma strip_idempotent s : strip (strip s) = strip s.
Proof.
  unfold strip.
  rewrite (lstrip_fixed _ (rstrip_starts_clean _ (lstrip_starts_clean s))).
  apply rstrip_idempotent.
Qed.

Section GatewayMore.
Context `{Host}.

(** X1. [get_all_branches] never raises; it returns no branch when no
    repository is set (and then does nothing), when starting the tool
    raised, and when the tool exited with another status than 0; and every
    name it returns is non-empty, has no white space around it and no line
    break in it. *)
Theorem get_all_branches_clean self s :
  exists branches s',
    get_all_branches self s = (Ok branches, s')
    /\ Forall (fun b => b <> "" /\ strip b = b /\ occurs newline b = false)
              branches
    /\ (truthy (repo_path self) = false -> branches = [] /\ s' = s)
    /\ (truthy (repo_path self) = true ->
        forall out w',
          subprocess_run branches_argv (repo_path self) (world s) = (out, w') ->
          match out with
          | inl _ => branches = []
          | inr r => returncode r <> 0 -> branches = []
          end).
Proof.
  unfold get_all_branches, bind.
  destruct (truthy (repo_path self)) eqn:T.
  - rewrite run_git_set by exact T. fold branches_argv.
    destruct (subprocess_run _ _ _) as [[e|r] w'] eqn:E.
    + exists [], {| world := w';
                    journal := (journal s
                                ++ [Spawn branches_argv (repo_path self) (inl e)])
                               ++ [Print ("Git Error: " ++ e)] |}.
      repeat split; try constructor; try discriminate.
      intros _ out w2 [= <- <-]. reflexivity.
    + destruct (returncode r =? 0) eqn:Rc.
      * eexists _, _. split; [reflexivity|]. split; [|split].
        -- apply Forall_forall. intros b Hb.
           apply in_map_iff in Hb as (x & <- & Hx).
           apply filter_In in Hx as [Hin Hx].
           split; [now apply truthy_true|].
           split; [apply strip_idempotent|].
           apply strip_keeps_absent.
           pose proof (split_pieces_without_sep newline (strip (stdout r))) as F.
           rewrite Forall_forall in F. now apply F.
        -- discriminate.
        -- intros _ out w2 [= <- <-]. apply Z.eqb_eq in Rc. intros N.
           contradiction.
      * exists [], {| world := w';
                      journal := journal s
                                 ++ [Spawn branches_argv (repo_path self)
                                           (inr r)] |}.
        repeat split; try constructor; try discriminate.
        intros _ out w2 [= <- <-]. reflexivity.
  - rewrite run_git_unset by exact T. exists [], s.
    repeat split; try constructor; discriminate.
Qed.

(** X2. [get_commits] never raises, and in every commit it returns none of
    the four fields contains a bar or a line break: a row of the table is
    four single-line cells, whatever the tool wrote. *)
Theorem get_commits_fields_clean self branch skip limit s :
  exists commits s',
    get_commits self branch skip limit s = (Ok commits, s')
    /\ Forall (fun c => clean_field (hash c) /\ clean_field (date c)
                        /\ clean_field (author c) /\ clean_field (msg c))
              commits.
Proof.
  assert (Hline : forall line,
             occurs newline line = false ->
             Forall (fun c => clean_field (hash c) /\ clean_field (date c)
                              /\ clean_field (author c) /\ clean_field (msg c))
                    (get_commits_line [] line)).
  { intros line Nl. unfold get_commits_line.
    destruct (4 <=? List.length (split bar line))%nat eqn:L; [|constructor].
    apply Nat.leb_le in L. simpl.
    pose proof (split_pieces_without_sep bar line) as Fb.
    pose proof (split_pieces_keep_absent newline bar line Nl) as Fn.
    rewrite Forall_forall in Fb, Fn.
    assert (Hn : forall i, (i < 4)%nat -> clean_field (nth i (split bar line) "")).
    { intros i Hi. split; [apply Fb|apply Fn]; apply nth_In; lia. }
    constructor; [|constructor].
    cbn [hash date author msg]. repeat split; apply Hn; lia. }
  unfold get_commits, bind.
  destruct (run_git_ok self (log_args branch skip limit) s) as (res & s' & ->).
  destruct res as [r|]; [|eexists _, _; split; [reflexivity|constructor]].
  destruct ((returncode r =? 0) && truthy (stdout r));
    [|eexists _, _; split; [reflexivity|constructor]].
  eexists _, _. split; [reflexivity|].
  rewrite get_commits_fold. simpl.
  pose proof (split_pieces_without_sep newline (stdout r)) as F.
  induction F as [|line lines Nl F IH]; simpl; [constructor|].
  apply Forall_app. split; [now apply Hline|exact IH].
Qed.

End GatewayMore.

(** ** What handlers add to the journal, for any acceptance test *)

Section Adding.
Context `{Host}.
Variable P : Effect -> bool.
Hypothesis P_print : forall line, P (Print line) = true.
Hypothesis P_log : forall cwd branch skip limit out,
    truthy cwd = true ->
    P (Spawn ("git" :: log_args branch skip limit) cwd out) = true.
Hypothesis P_branches : forall cwd out,
    truthy cwd = true -> P (Spawn branches_argv cwd out) = true.
Hypothesis P_current : forall cwd out,
    truthy cwd = true -> P (Spawn show_current_argv cwd out) = true.
Hypothesis P_create : forall cwd f range out,
    truthy cwd = true ->
    P (Spawn ["git"; "bundle"; "create"; f; range] cwd out) = true.
Hypothesis P_verify : forall cwd f out,
    truthy cwd = true -> P (Spawn (verify_argv f) cwd out) = true.
Hypothesis P_pull : forall cwd f b out,
    truthy cwd = true -> P (Spawn ["git"; "pull"; f; b] cwd out) = true.
Hypothesis P_box : forall kind title message,
    P (MessageBox kind title message) = true.
Hypothesis P_ask : forall title message answer,
    P (AskYesNo title message answer) = true.
Hypothesis P_thread : forall f b, P (ThreadStart f b) = true.

Lemma AddsIO_ret {A} (x : A) : AddsIO P (ret x).
Proof. intros s. exists []. simpl. now rewrite app_nil_r. Qed.

Lemma AddsIO_raise {A} e : AddsIO P (@raise Sys A e).
Proof. intros s. exists []. simpl. now rewrite app_nil_r. Qed.

Lemma AddsIO_gets {A} (f : Sys -> A) : AddsIO P (gets f).
Proof. intros s. exists []. simpl. now rewrite app_nil_r. Qed.

Lemma AddsIO_emit e : P e = true -> AddsIO P (emit e).
Proof. intros C s. exists [e]. simpl. now rewrite C. Qed.

Lemma AddsIO_bind {A B} (m : M Sys A) (k : A -> M Sys B) :
  AddsIO P m -> (forall x, AddsIO P (k x)) -> AddsIO P (bind m k).
Proof.
  intros Hm Hk s. unfold bind.
  destruct (Hm s) as (seg1 & E1 & C1).
  destruct (m s) as [[x|e] s1]; simpl in E1.
  - destruct (Hk x s1) as (seg2 & E2 & C2).
    exists (seg1 ++ seg2)%list. rewrite E2, E1, app_assoc, forallb_app, C1, C2.
    split; reflexivity.
  - exists seg1. simpl. split; assumption.
Qed.

Lemma AddsIO_run_git self args :
  (truthy (repo_path self) = true ->
   forall out, P (Spawn ("git" :: args) (repo_path self) out) = true) ->
  AddsIO P (run_git self args).
Proof.
  intros C s. destruct (truthy (repo_path self)) eqn:T.
  - rewrite run_git_set by exact T.
    destruct (subprocess_run _ _ _) as [[e|r] w']; simpl.
    + rewrite <- app_assoc. eexists; split; [reflexivity|].
      simpl. now rewrite C, P_print.
    + eexists; split; [reflexivity|]. simpl. now rewrite C.
  - rewrite run_git_unset by exact T. exists []. simpl.
    now rewrite app_nil_r.
Qed.

Lemma AddsIO_get_commits self branch skip limit :
  AddsIO P (get_commits self branch skip limit).
Proof.
  apply AddsIO_bind; [apply AddsIO_run_git; intros; now apply P_log|].
  intros [r|]; [destruct (_ && _)|]; apply AddsIO_ret.
Qed.

Lemma AddsIO_get_current_branch self : AddsIO P (get_current_branch self).
Proof.
  apply AddsIO_bind;
    [apply AddsIO_run_git; intros; now apply (P_current (repo_path self))|].
  intros [r|]; apply AddsIO_ret.
Qed.

Lemma AddsIO_get_all_branches self : AddsIO P (get_all_branches self).
Proof.
  apply AddsIO_bind;
    [apply AddsIO_run_git; intros; now apply (P_branches (repo_path self))|].
  intros [r|]; [destruct (_ =? _)|]; apply AddsIO_ret.
Qed.

Lemma AddsIO_create_bundle self start branch f :
  AddsIO P (create_bundle self start branch f).
Proof.
  apply AddsIO_bind; [apply AddsIO_run_git; intros; now apply P_create|].
  intros [r|]; [apply AddsIO_ret|apply AddsIO_raise].
Qed.

Lemma AddsIO_verify_bundle self f : AddsIO P (verify_bundle self f).
Proof.
  apply AddsIO_bind;
    [apply AddsIO_run_git; intros; now apply (P_verify (repo_path self))|].
  intros [r|]; [apply AddsIO_ret|apply AddsIO_raise].
Qed.

Lemma AddsIO_fetch_bundle self f b : AddsIO P (fetch_bundle self f b).
Proof.
  apply AddsIO_bind; [apply AddsIO_run_git; intros; now apply P_pull|].
  intros [r|]; [apply AddsIO_ret|apply AddsIO_raise].
Qed.

Lemma AddsIO_set_repo_path self path : AddsIO P (set_repo_path self path).
Proof.
  apply AddsIO_bind; [apply AddsIO_gets|].
  intros [|]; apply AddsIO_ret.
Qed.

Lemma Adds_io {A} (m : M Sys A) : AddsIO P m -> Adds P (io m).
Proof.
  intros C a. unfold io. destruct (C (sys a)) as (seg & E & Cs).
  destruct (m (sys a)) as [r s']; simpl in *. eauto.
Qed.

Lemma Adds_nothing {A} (m : M App A) :
  (forall a, sys (snd (m a)) = sys a) -> Adds P m.
Proof. intros E a. exists []. rewrite E, app_nil_r. split; reflexivity. Qed.

Lemma Adds_bind {A B} (m : M App A) (k : A -> M App B) :
  Adds P m -> (forall x, Adds P (k x)) -> Adds P (bind m k).
Proof.
  intros Hm Hk a. unfold bind.
  destruct (Hm a) as (seg1 & E1 & C1).
  destruct (m a) as [[x|e] a1]; simpl in E1.
  - destruct (Hk x a1) as (seg2 & E2 & C2).
    exists (seg1 ++ seg2)%list. rewrite E2, E1, app_assoc, forallb_app, C1, C2.
    split; reflexivity.
  - exists seg1. simpl. split; assumption.
Qed.

Lemma Adds_try_pass (m : M App unit) : Adds P m -> Adds P (try_pass m).
Proof.
  intros Hm a. unfold try_pass. specialize (Hm a).
  destruct (m a) as [[x|e] a1]; exact Hm.
Qed.

Ltac adds :=
  repeat first
    [ apply Adds_nothing; reflexivity
    | apply Adds_try_pass
    | apply Adds_io;
      first [ apply AddsIO_get_commits | apply AddsIO_get_current_branch
            | apply AddsIO_get_all_branches | apply AddsIO_set_repo_path
            | apply AddsIO_create_bundle | apply AddsIO_verify_bundle
            | apply AddsIO_fetch_bundle | apply AddsIO_gets
            | apply AddsIO_emit; solve [ apply P_box | apply P_ask
                                       | apply P_thread ] ]
    | apply Adds_bind; [|intros]
    | match goal with
      | |- Adds _ (if ?c then _ else _) => destruct c
      | |- Adds _ (match ?x with _ => _ end) => destruct x
      end ].

Lemma Adds_load_commits reset : Adds P (load_commits reset).
Proof. unfold load_commits. adds. Qed.

Lemma Adds_refresh_project_info : Adds P refresh_project_info.
Proof. unfold refresh_project_info. adds. Qed.

Lemma Adds_load_settings : Adds P load_settings.
Proof. unfold load_settings. adds. Qed.

Lemma Adds_prev_page : Adds P prev_page.
Proof. unfold prev_page. adds. Qed.

Lemma Adds_next_page : Adds P next_page.
Proof. unfold next_page. adds. Qed.

Lemma Adds_on_commit_select sel : Adds P (on_commit_select sel).
Proof. unfold on_commit_select. adds. Qed.

Lemma Adds_create_bundle_action target : Adds P (create_bundle_action target).
Proof. unfold create_bundle_action, thread_start. adds. Qed.

Lemma Adds_run_bundle_creation f b : Adds P (_run_bundle_creation f b).
Proof. unfold _run_bundle_creation, messagebox. adds. Qed.

Lemma Adds_apply_bundle_action f c : Adds P (apply_bundle_action f c).
Proof. unfold apply_bundle_action, messagebox, askyesno. adds. Qed.

Lemma Adds_browse_folder path :
  (forall p, P (WriteSettings p) = true) -> Adds P (browse_folder path).
Proof.
  intros P_write. unfold browse_folder, save_settings, messagebox.
  adds. apply Adds_io, AddsIO_emit, P_write.
Qed.

(** Every handler but the folder chooser. *)
Lemma Adds_handle_but_browse ev :
  (forall path, ev <> BrowseFolder path) -> Adds P (handle ev).
Proof.
  intros Nb. destruct ev; cbn [handle].
  - now destruct (Nb path).
  - apply Adds_bind; [apply Adds_nothing; reflexivity|intros].
    apply Adds_load_commits.
  - apply Adds_refresh_project_info.
  - apply Adds_prev_page.
  - apply Adds_next_page.
  - apply Adds_on_commit_select.
  - apply Adds_create_bundle_action.
  - apply Adds_apply_bundle_action.
  - apply Adds_bind; [apply Adds_nothing; reflexivity|intros pending].
    destruct (nth_error pending i) as [[f b]|];
      [|apply Adds_nothing; reflexivity].
    apply Adds_bind; [apply Adds_nothing; reflexivity|intros].
    apply Adds_run_bundle_creation.
Qed.

Lemma Adds_handle ev :
  (forall p, P (WriteSettings p) = true) -> Adds P (handle ev).
Proof.
  intros P_write. destruct ev;
    try (apply Adds_handle_but_browse; discriminate).
  now apply Adds_browse_folder.
Qed.

Lemma reachable_journal_accepted a :
  (forall p, P (WriteSettings p) = true) ->
  reachable a -> forallb P (journal (sys a)) = true.
Proof.
  intros P_write R. induction R as [w|ev a R IH En].
  - destruct (Adds_load_settings
                {| ui := initial_ui; sys := {| world := w; journal := [] |};
                   threads := [] |}) as (seg & E & C).
    unfold startup. rewrite E. exact C.
  - destruct (Adds_handle ev P_write a) as (seg & E & C).
    unfold step. rewrite E, forallb_app, IH, C. reflexivity.
Qed.

End Adding.

(** ** Which handler changes what *)

Ltac keeps :=
  repeat first
    [ apply Maintains_ret | apply Maintains_self | apply Maintains_gets
    | apply Maintains_io | apply Maintains_try_pass
    | apply Maintains_modify; reflexivity
    | apply Maintains_assign; intros ? ?; cbn; assumption
    | apply Maintains_bind; [|intros]
    | match goal with
      | |- Maintains _ (if ?c then _ else _) => destruct c
      | |- Maintains _ (match ?x with _ => _ end) => destruct x
      end ].

Lemma last_written_app j seg :
  last_written (j ++ seg)
  = match last_written seg with
    | Some q => Some q
    | None => last_written j
    end.
Proof.
  induction j as [|e j IH]; simpl.
  - now destruct (last_written seg).
  - destruct e; try exact IH. rewrite IH.
    destruct (last_written seg); reflexivity.
Qed.

Lemma last_written_none j : forallb no_write j = true -> last_written j = None.
Proof.
  induction j as [|e j IH]; simpl; intros N; [reflexivity|].
  apply andb_true_iff in N as [Ne Nj]. destruct e; try discriminate Ne; auto.
Qed.

Section Frames.
Context `{Host}.

Lemma handle_keeps (P : ModernUI -> Prop) ev :
  (forall path, ev <> BrowseFolder path) ->
  (forall u v, P u -> P (with_status_var v u)) ->
  (forall u v, P u -> P (with_lbl_selection v u)) ->
  (forall u v, P u -> P (with_selected_commit_hash v u)) ->
  (forall reset, Maintains P (load_commits reset)) ->
  (forall u b, P u ->
               P (with_branch_combo
                    {| values := values (branch_combo u); text := b |} u)) ->
  Maintains P refresh_project_info ->
  Maintains P prev_page -> Maintains P next_page ->
  Maintains P (handle ev).
Proof.
  intros Nb Hs Hl Hh Hload Hc Hr Hp Hn. destruct ev; cbn [handle].
  - now destruct (Nb path).
  - apply Maintains_bind; [apply Maintains_assign; intros; now apply Hc|].
    intros. apply Hload.
  - exact Hr.
  - exact Hp.
  - exact Hn.
  - unfold on_commit_select.
    apply Maintains_bind; [apply Maintains_self|intros rows].
    destruct (nth_error rows row); [|apply Maintains_ret].
    apply Maintains_bind; [apply Maintains_assign; intros; now apply Hh|].
    intros. apply Maintains_assign. intros. now apply Hl.
  - unfold create_bundle_action, thread_start.
    apply Maintains_bind; [apply Maintains_self|intros g].
    destruct (negb _); [apply Maintains_ret|].
    apply Maintains_bind; [apply Maintains_self|intros b].
    destruct (truthy target_file); [|apply Maintains_ret].
    apply Maintains_bind; [apply Maintains_assign; intros; now apply Hs|].
    intros. apply Maintains_bind; [apply Maintains_io|intros].
    apply Maintains_modify. reflexivity.
  - unfold apply_bundle_action, messagebox, askyesno.
    repeat first
      [ exact Hr | apply Maintains_ret | apply Maintains_self
      | apply Maintains_io
      | apply Maintains_assign; intros; now apply Hs
      | apply Maintains_bind; [|intros]
      | match goal with
        | |- Maintains _ (if ?c then _ else _) => destruct c
        end ].
  - apply Maintains_bind; [apply Maintains_gets|intros pending].
    destruct (nth_error pending i) as [[f b]|]; [|apply Maintains_ret].
    apply Maintains_bind; [apply Maintains_modify; reflexivity|intros].
    unfold _run_bundle_creation, messagebox.
    repeat first
      [ apply Maintains_ret | apply Maintains_self | apply Maintains_io
      | apply Maintains_assign; intros; now apply Hs
      | apply Maintains_bind; [|intros]
      | match goal with
        | |- Maintains _ (if ?c then _ else _) => destruct c
        end ].
Qed.

Lemma load_commits_keeps_git g reset :
  Maintains (fun u => git u = g) (load_commits reset).
Proof. unfold load_commits. keeps. Qed.

Lemma refresh_project_info_keeps_git g :
  Maintains (fun u => git u = g) refresh_project_info.
Proof. unfold refresh_project_info. keeps. Qed.

Lemma handle_keeps_git g ev :
  (forall path, ev <> BrowseFolder path) ->
  Maintains (fun u => git u = g) (handle ev).
Proof.
  intros Nb. apply handle_keeps; try exact Nb; try (intros; assumption).
  - apply load_commits_keeps_git.
  - apply refresh_project_info_keeps_git.
  - unfold prev_page. keeps.
  - unfold next_page. keeps.
Qed.

Lemma browse_folder_cancelled a : step (BrowseFolder "") a = a.
Proof. reflexivity. Qed.

Lemma browse_folder_not_repository a path :
  truthy path = true ->
  os_path_isdir (os_path_join path ".git") (world (sys a)) = false ->
  step (BrowseFolder path) a
  = {| ui := ui a;
       sys := {| world := world (sys a);
                 journal := journal (sys a)
                            ++ [MessageBox showerror "Error"
                                  "This folder is not a Git repository."] |};
       threads := threads a |}.
Proof.
  destruct a as [u s t]. destruct u. cbn [ui sys threads]. intros Tp Dir.
  unfold step. cbn [handle]. unfold browse_folder. rewrite Tp.
  unfold bind, self, gets, io, set_repo_path, is_git_repo, assign, modify,
    ret, bind, messagebox, io, emit, modify.
  cbn. rewrite Dir. reflexivity.
Qed.

Lemma startup_not_restored w :
  restorable w = None ->
  startup w = {| ui := initial_ui; sys := {| world := w; journal := [] |};
                 threads := [] |}.
Proof.
  unfold restorable, startup, load_settings, try_pass, bind, io, gets.
  cbn -[refresh_project_info]. destruct (settings_last_repo w) as [path|];
    [|reflexivity].
  destruct (truthy path); cbn -[refresh_project_info]; [|reflexivity].
  destruct (os_path_exists path w); cbn -[refresh_project_info];
    [|reflexivity].
  unfold self, gets, set_repo_path, is_git_repo, bind, gets, assign, modify,
    ret.
  cbn -[refresh_project_info].
  destruct (os_path_isdir _ _); [discriminate|reflexivity].
Qed.

Lemma startup_restored w path :
  restorable w = Some path ->
  truthy path = true
  /\ startup w
     = snd (refresh_project_info
              {| ui := with_path_var path
                         (with_git {| repo_path := path |} initial_ui);
                 sys := {| world := w; journal := [] |}; threads := [] |}).
Proof.
  unfold restorable, startup, load_settings, try_pass, bind, io, gets.
  cbn -[refresh_project_info]. destruct (settings_last_repo w) as [p|];
    [|discriminate].
  destruct (truthy p) eqn:Tp; cbn -[refresh_project_info]; [|discriminate].
  destruct (os_path_exists p w); cbn -[refresh_project_info]; [|discriminate].
  unfold self, gets, set_repo_path, is_git_repo, bind, gets, assign, modify,
    ret.
  cbn -[refresh_project_info].
  destruct (os_path_isdir _ _); [|discriminate].
  intros [= <-]. split; [exact Tp|].
  cbn -[refresh_project_info].
  destruct (refresh_project_info _) as [[u|e] a']; reflexivity.
Qed.

(** X3. In every reachable state, every process in the journal is one of
    the program's six [git] command lines (the two branch queries, the
    paged log, bundle creation, bundle verification, the pull from a
    bundle) and was started in a non-empty working directory: the program
    runs nothing else, and nothing before a repository is set. *)
Theorem only_program_commands a :
  reachable a ->
  forall argv cwd out,
    In (Spawn argv cwd out) (journal (sys a)) ->
    program_command argv = true /\ cwd <> "".
Proof.
  intros R argv cwd out Hin.
  assert (F : forallb program_process (journal (sys a)) = true).
  { assert (Pe : forall s, String.prefix "" s = true) by (now destruct s).
    apply reachable_journal_accepted; try exact R; intros;
      try reflexivity; cbn -[str_of_int];
      match goal with T : truthy _ = true |- _ => rewrite T end;
      rewrite ?Pe; reflexivity. }
  rewrite forallb_forall in F. specialize (F _ Hin). cbn in F.
  apply andb_true_iff in F as [Fc Ft]. split; [exact Fc|].
  now apply truthy_true.
Qed.

(** X4. Only a successful choice of folder changes the repository of the
    gateway: every other event leaves it as it was, a cancelled or
    rejected choice too, so a repository once set is never unset. *)
Theorem repository_changes_only_by_browse ev a :
  ((forall path, ev <> BrowseFolder path) -> git (ui (step ev a)) = git (ui a))
  /\ (forall path,
         git (ui (step (BrowseFolder path) a))
         = if truthy path
              && os_path_isdir (os_path_join path ".git") (world (sys a))
           then {| repo_path := path |} else git (ui a))
  /\ (truthy (repo_path (git (ui a))) = true ->
      truthy (repo_path (git (ui (step ev a)))) = true).
Proof.
  assert (Hb : forall path,
             git (ui (step (BrowseFolder path) a))
             = if truthy path
                  && os_path_isdir (os_path_join path ".git") (world (sys a))
               then {| repo_path := path |} else git (ui a)).
  { intros path. destruct (truthy path) eqn:Tp; cbn [andb].
    - destruct (os_path_isdir _ _) eqn:Dir.
      + unfold step. cbn [handle].
        rewrite (browse_folder_repository _ _ Tp Dir).
        now apply refresh_project_info_keeps_git.
      + now rewrite browse_folder_not_repository.
    - apply truthy_false in Tp. subst path. reflexivity. }
  assert (Hk : (forall path, ev <> BrowseFolder path) ->
               git (ui (step ev a)) = git (ui a)).
  { intros Nb. now apply handle_keeps_git. }
  split; [exact Hk|]. split; [exact Hb|].
  intros T. destruct ev; try (rewrite Hk; [exact T|discriminate]).
  rewrite Hb. destruct (truthy path) eqn:Tp; cbn [andb]; [|exact T].
  destruct (os_path_isdir _ _); [exact Tp|exact T].
Qed.

(** X5. A folder that is not a repository is refused without any other
    change: the window, the repository, the pending workers and the world
    are as before, no process is started and no settings are written; the
    journal gains the error box only.  A cancelled dialog changes nothing
    at all. *)
Theorem browse_folder_rejected a :
  step (BrowseFolder "") a = a
  /\ forall path,
      truthy path = true ->
      os_path_isdir (os_path_join path ".git") (world (sys a)) = false ->
      ui (step (BrowseFolder path) a) = ui a
      /\ threads (step (BrowseFolder path) a) = threads a
      /\ world (sys (step (BrowseFolder path) a)) = world (sys a)
      /\ journal (sys (step (BrowseFolder path) a))
         = (journal (sys a)
            ++ [MessageBox showerror "Error"
                  "This folder is not a Git repository."])%list.
Proof.
  split; [apply browse_folder_cancelled|].
  intros path Tp Dir. rewrite (browse_folder_not_repository _ _ Tp Dir).
  repeat split.
Qed.

(** X6. In every reachable state, once settings have been written the
    path written last is the repository the gateway is on, and it is not
    empty: the settings file never lags behind the window. *)
Theorem settings_follow_repository a :
  reachable a ->
  forall p,
    last_written (journal (sys a)) = Some p ->
    repo_path (git (ui a)) = p /\ p <> "".
Proof.
  induction 1 as [w|ev a R IH En]; intros p L.
  - destruct (@Adds_load_settings _ no_write)
      with (a := {| ui := initial_ui; sys := {| world := w; journal := [] |};
                    threads := [] |}) as (seg & E & C);
      try (intros; reflexivity).
    unfold startup in L. rewrite E in L. cbn in L.
    rewrite (last_written_none _ C) in L. discriminate L.
  - assert (Other : (forall path, ev <> BrowseFolder path) ->
                    repo_path (git (ui (step ev a))) = p /\ p <> "").
    { intros Nb.
      destruct (@Adds_handle_but_browse _ no_write) with (ev := ev) (a := a)
        as (seg & E & C); try (intros; reflexivity); try exact Nb.
      unfold step in L |- *. rewrite E, last_written_app in L.
      rewrite (last_written_none _ C) in L.
      rewrite (@handle_keeps_git (git (ui a)) ev Nb a eq_refl). now apply IH. }
    destruct ev; try (apply Other; discriminate).
    destruct (truthy path) eqn:Tp.
    + destruct (os_path_isdir (os_path_join path ".git") (world (sys a)))
        eqn:Dir.
      * unfold step in L |- *. cbn [handle] in L |- *.
        rewrite (browse_folder_repository _ _ Tp Dir) in L |- *.
        match type of L with
        | context [refresh_project_info ?x] =>
            destruct (@Adds_refresh_project_info _ no_write) with (a := x)
              as (seg & E & C); try (intros; reflexivity);
            rewrite (@refresh_project_info_keeps_git (git (ui x)) x eq_refl)
        end.
        rewrite E in L. cbn [sys journal] in L.
        rewrite last_written_app, (last_written_none _ C) in L.
        rewrite last_written_app in L. cbn in L. injection L as <-.
        split; [reflexivity|now apply truthy_true].
      * rewrite (browse_folder_not_repository _ _ Tp Dir) in L |- *.
        cbn in L |- *. rewrite last_written_app in L. cbn in L.
        now apply IH.
    + apply truthy_false in Tp. subst path. now apply IH.
Qed.

Lemma refresh_project_info_keeps_header :
  Maintains (fun u => path_var u = shown_path (git u)) refresh_project_info.
Proof. unfold refresh_project_info. keeps. Qed.

(** X7. In every reachable state the path shown in the header is the
    repository the gateway is on, and the placeholder text when none is
    set. *)
Theorem header_shows_repository a :
  reachable a -> path_var (ui a) = shown_path (git (ui a)).
Proof.
  pose proof refresh_project_info_keeps_header as Hr.
  induction 1 as [w|ev a R IH En].
  - destruct (restorable w) as [p|] eqn:Rw.
    + destruct (startup_restored _ Rw) as [Tp ->].
      apply Hr. cbn. unfold shown_path. cbn. now rewrite Tp.
    + rewrite (startup_not_restored _ Rw). reflexivity.
  - assert (Other : (forall path, ev <> BrowseFolder path) ->
                    path_var (ui (step ev a)) = shown_path (git (ui (step ev a)))).
    { intros Nb.
      apply (@handle_keeps (fun u => path_var u = shown_path (git u)) ev Nb);
        try (intros; assumption); try exact Hr; try exact IH.
      - intros reset. unfold load_commits. keeps.
      - unfold prev_page. keeps.
      - unfold next_page. keeps. }
    destruct ev; try (apply Other; discriminate).
    destruct (truthy path) eqn:Tp.
    + destruct (os_path_isdir (os_path_join path ".git") (world (sys a)))
        eqn:Dir.
      * unfold step. cbn [handle].
        rewrite (browse_folder_repository _ _ Tp Dir).
        apply Hr. cbn. unfold shown_path. cbn. now rewrite Tp.
      * rewrite (browse_folder_not_repository _ _ Tp Dir). exact IH.
    + apply truthy_false in Tp. subst path. exact IH.
Qed.

(** X8. Starting the program shows no dialog, writes no settings and
    starts no worker, whatever the settings file holds.  If the saved path
    is missing, empty, gone, or not a repository, the window starts as
    built, with no repository and nothing run; otherwise it starts on the
    saved repository, at page 0 with no start point. *)
Theorem startup_is_silent w :
  forallb silent (journal (sys (startup w))) = true
  /\ (restorable w = None ->
      startup w = {| ui := initial_ui; sys := {| world := w; journal := [] |};
                     threads := [] |})
  /\ (forall p,
         restorable w = Some p ->
         repo_path (git (ui (startup w))) = p
         /\ path_var (ui (startup w)) = p
         /\ p <> ""
         /\ current_page (ui (startup w)) = 0
         /\ selected_commit_hash (ui (startup w)) = None).
Proof.
  split; [|split].
  - destruct (@Adds_load_settings _ silent)
      with (a := {| ui := initial_ui; sys := {| world := w; journal := [] |};
                    threads := [] |}) as (seg & E & C);
      try (intros; reflexivity).
    unfold startup. rewrite E. exact C.
  - apply startup_not_restored.
  - intros p Rw.
    destruct (startup_restored _ Rw) as [Tp E]. rewrite E.
    match goal with
    | |- context [refresh_project_info ?x] =>
        destruct (@refresh_project_info_resets _ x Tp)
          as (Eg & _ & Ep & Eh & _);
        assert (Hp : path_var (ui (snd (refresh_project_info x)))
                     = shown_path (git (ui (snd (refresh_project_info x)))))
          by (apply refresh_project_info_keeps_header; cbn;
              unfold shown_path; cbn; now rewrite Tp)
    end.
    cbn -[refresh_project_info] in Eg.
    rewrite Hp, Eg, Ep, Eh. unfold shown_path. cbn. rewrite Tp.
    repeat split. now apply truthy_true.
Qed.

End Frames.

(** ** Creating and applying bundles, step by step *)

Section Bundles.
Context `{Host}.


Lemma on_commit_select_step a i :
  step (TreeviewSelect i) a
  = match nth_error (tree (ui a)) i with
    | Some c =>
        {| ui := with_lbl_selection (start_point_text c)
                   (with_selected_commit_hash (Some (hash c)) (ui a));
           sys := sys a; threads := threads a |}
    | None => a
    end.
Proof.
  destruct a as [u s t]. unfold step. cbn [handle].
  unfold on_commit_select, bind, self, gets, assign, modify, ret.
  cbn. destruct (nth_error (tree u) i); reflexivity.
Qed.

Lemma worker_step a i f b :
  nth_error (threads a) i = Some (f, b) ->
  step (WorkerRun i) a
  = snd (_run_bundle_creation f b
           {| ui := ui a; sys := sys a;
              threads := firstn i (threads a) ++ skipn (S i) (threads a) |}).
Proof.
  intros E. unfold step. cbn [handle]. unfold bind, gets, modify.
  cbn -[_run_bundle_creation]. rewrite E. reflexivity.
Qed.

(** What the worker does, by the answers of the tool. *)
Lemma run_bundle_creation_set f b a :
  truthy (repo_path (git (ui a))) = true ->
  let cwd := repo_path (git (ui a)) in
  let argv := create_argv f (selected_commit_hash (ui a)) b in
  snd (_run_bundle_creation f b a)
  = match subprocess_run argv cwd (world (sys a)) with
    | (inl e, w1) =>
        {| ui := ui a;
           sys := {| world := w1;
                     journal := (journal (sys a) ++ [Spawn argv cwd (inl e)])
                                ++ [Print ("Git Error: " ++ e)] |};
           threads := threads a |}
    | (inr r, w1) =>
        let j1 := (journal (sys a) ++ [Spawn argv cwd (inr r)])%list in
        if returncode r =? 0 then
          match subprocess_run (verify_argv f) cwd w1 with
          | (inl e, w2) =>
              {| ui := ui a;
                 sys := {| world := w2;
                           journal := (j1 ++ [Spawn (verify_argv f) cwd (inl e)])
                                      ++ [Print ("Git Error: " ++ e)] |};
                 threads := threads a |}
          | (inr rv, w2) =>
              let j2 := (j1 ++ [Spawn (verify_argv f) cwd (inr rv)])%list in
              if returncode rv =? 0 then
                {| ui := with_status_var "Bundle ready." (ui a);
                   sys := {| world := w2;
                             journal :=
                               j2 ++ [MessageBox showinfo "Success"
                                        ("Bundle created & Verified successfully!"
                                         ++ nl ++ "Saved at: " ++ f)] |};
                   threads := threads a |}
              else
                {| ui := ui a;
                   sys := {| world := w2;
                             journal :=
                               j2 ++ [MessageBox showwarning "Warning"
                                        ("Bundle created but verification failed:"
                                         ++ nl ++ stdout rv)] |};
                   threads := threads a |}
          end
        else
          {| ui := with_status_var "Error creating bundle." (ui a);
             sys := {| world := w1;
                       journal :=
                         j1 ++ [MessageBox showerror "Error"
                                  ("Failed to create bundle:" ++ nl
                                   ++ py_or (stderr r) (stdout r))] |};
             threads := threads a |}
    end.
Proof.
  destruct a as [u s t]. cbn [ui sys threads]. intros T. cbv zeta.
  unfold _run_bundle_creation, bind, self, gets, io, messagebox, assign,
    modify, create_bundle, verify_bundle, bind, io, emit, modify, ret,
    create_argv.
  cbn [ui sys threads fst snd].
  rewrite run_git_set by exact T.
  destruct (subprocess_run _ _ (world s)) as [[e|r] w1];
    cbn [ui sys threads fst snd world journal]; [reflexivity|].
  destruct (returncode r =? 0); cbn [ui sys threads fst snd world journal];
    [|reflexivity].
  rewrite run_git_set by exact T.
  cbn [ui sys threads fst snd world journal]. fold (verify_argv f).
  destruct (subprocess_run (verify_argv f) _ w1) as [[e|rv] w2];
    cbn [ui sys threads fst snd world journal]; [reflexivity|].
  destruct (returncode rv =? 0); reflexivity.
Qed.


(** X9. A worker that completes reports in one of three ways.  If the
    creation exits with another status than 0: an error box with the tool's
    standard error (its standard output when that is empty) and the status
    line "Error creating bundle.".  If it exits with 0 the bundle is
    verified: on status 0 an information box naming the file and the status
    line "Bundle ready."; otherwise a warning box with the verifier's
    standard output, and the status line is left as it was.  Nothing else
    in the window changes, and the worker leaves the pending list. *)
Theorem worker_reports_outcome a i f b r w1 :
  truthy (repo_path (git (ui a))) = true ->
  nth_error (threads a) i = Some (f, b) ->
  subprocess_run (create_argv f (selected_commit_hash (ui a)) b)
                 (repo_path (git (ui a))) (world (sys a)) = (inr r, w1) ->
  let a' := step (WorkerRun i) a in
  let cwd := repo_path (git (ui a)) in
  let created :=
    Spawn (create_argv f (selected_commit_hash (ui a)) b) cwd (inr r) in
  threads a' = (firstn i (threads a) ++ skipn (S i) (threads a))%list
  /\ (returncode r <> 0 ->
      new_effects (sys a) (sys a')
      = [created;
         MessageBox showerror "Error"
           ("Failed to create bundle:" ++ nl ++ py_or (stderr r) (stdout r))]
      /\ ui a' = with_status_var "Error creating bundle." (ui a))
  /\ (returncode r = 0 ->
      forall rv w2,
        subprocess_run (verify_argv f) cwd w1 = (inr rv, w2) ->
        (returncode rv = 0 ->
         new_effects (sys a) (sys a')
         = [created; Spawn (verify_argv f) cwd (inr rv);
            MessageBox showinfo "Success"
              ("Bundle created & Verified successfully!" ++ nl
               ++ "Saved at: " ++ f)]
         /\ ui a' = with_status_var "Bundle ready." (ui a))
        /\ (returncode rv <> 0 ->
            new_effects (sys a) (sys a')
            = [created; Spawn (verify_argv f) cwd (inr rv);
               MessageBox showwarning "Warning"
                 ("Bundle created but verification failed:" ++ nl
                  ++ stdout rv)]
            /\ ui a' = ui a)).
Proof.
  intros T Et Ec a' cwd created. subst a' cwd created.
  rewrite (worker_step _ _ Et).
  rewrite run_bundle_creation_set by exact T. cbv zeta.
  cbn [ui sys threads]. rewrite Ec. split; [|split].
  - destruct (returncode r =? 0); [|reflexivity].
    destruct (subprocess_run _ _ w1) as [[e|rv] w2]; [reflexivity|].
    destruct (returncode rv =? 0); reflexivity.
  - intros Rc. apply Z.eqb_neq in Rc. rewrite Rc. split; [|reflexivity].
    cbn [sys]. rewrite <- app_assoc. apply new_effects_app.
  - intros Rc rv w2 Ev. apply Z.eqb_eq in Rc. rewrite Rc, Ev. split.
    + intros Rv. apply Z.eqb_eq in Rv. rewrite Rv. split; [|reflexivity].
      cbn [sys]. rewrite <- !app_assoc. apply new_effects_app.
    + intros Rv. apply Z.eqb_neq in Rv. rewrite Rv. split; [|reflexivity].
      cbn [sys]. rewrite <- !app_assoc. apply new_effects_app.
Qed.



(** X11. Applying a bundle stops short of any merge in four cases.  With
    no repository set only the error box appears; with the file dialog
    cancelled nothing happens; a bundle whose verification exits with
    another status than 0 gets the "Invalid Bundle" box (with the
    verifier's standard output) and no confirmation is asked; and when the
    user answers no, nothing follows the question.  In the last two cases
    the only process started is the verification and the only change to
    the window is the status line. *)
Theorem apply_bundle_stops_short a f :
  (truthy (repo_path (git (ui a))) = false ->
   forall confirm,
     ui (step (ApplyBundleClick f confirm) a) = ui a
     /\ new_effects (sys a) (sys (step (ApplyBundleClick f confirm) a))
        = [MessageBox showerror "Error"
             "Please select a project folder first."])
  /\ (truthy (repo_path (git (ui a))) = true ->
      (f = "" -> forall confirm, step (ApplyBundleClick f confirm) a = a)
      /\ (truthy f = true ->
          forall rv w1,
            subprocess_run (verify_argv f) (repo_path (git (ui a)))
                           (world (sys a)) = (inr rv, w1) ->
            let verified :=
              Spawn (verify_argv f) (repo_path (git (ui a))) (inr rv) in
            (returncode rv <> 0 ->
             forall confirm,
               new_effects (sys a) (sys (step (ApplyBundleClick f confirm) a))
               = [verified;
                  MessageBox showerror "Invalid Bundle"
                    ("This bundle is corrupted or invalid:" ++ nl ++ stdout rv)]
               /\ ui (step (ApplyBundleClick f confirm) a)
                  = with_status_var "Verifying bundle..." (ui a))
            /\ (returncode rv = 0 ->
                new_effects (sys a) (sys (step (ApplyBundleClick f false) a))
                = [verified;
                   AskYesNo "Confirm Merge"
                     "Bundle is valid. Do you want to MERGE it into your current branch?"
                     false]
                /\ ui (step (ApplyBundleClick f false) a)
                   = with_status_var "Verifying bundle..." (ui a)))).
Proof.
  destruct a as [u s t]. cbn [ui sys threads]. split.
  - intros T confirm. unfold step. cbn [handle].
    unfold apply_bundle_action, bind, self, gets, messagebox, io, emit, modify.
    cbn. rewrite T. cbn. split; [reflexivity|].
    apply (new_effects_app s).
  - intros T. split.
    + intros -> confirm. unfold step. cbn [handle].
      unfold apply_bundle_action, bind, self, gets. cbn. rewrite T.
      reflexivity.
    + intros Tf rv w1 Ev.
      assert (E : forall confirm,
                 step (ApplyBundleClick f confirm)
                      {| ui := u; sys := s; threads := t |}
                 = if returncode rv =? 0 then
                     if confirm then
                       step (ApplyBundleClick f confirm)
                            {| ui := u; sys := s; threads := t |}
                     else
                       {| ui := with_status_var "Verifying bundle..." u;
                          sys := {| world := w1;
                                    journal :=
                                      (journal s
                                       ++ [Spawn (verify_argv f)
                                                 (repo_path (git u)) (inr rv)])
                                      ++ [AskYesNo "Confirm Merge"
                                            "Bundle is valid. Do you want to MERGE it into your current branch?"
                                            false] |};
                          threads := t |}
                   else
                     {| ui := with_status_var "Verifying bundle..." u;
                        sys := {| world := w1;
                                  journal :=
                                    (journal s
                                     ++ [Spawn (verify_argv f)
                                               (repo_path (git u)) (inr rv)])
                                    ++ [MessageBox showerror "Invalid Bundle"
                                          ("This bundle is corrupted or invalid:"
                                           ++ nl ++ stdout rv)] |};
                        threads := t |}).
      { intros confirm. destruct (returncode rv =? 0) eqn:Rc;
          [destruct confirm; [reflexivity|]|];
          unfold step; cbn [handle];
          unfold apply_bundle_action, bind, self, gets, messagebox, askyesno,
            io, emit, assign, modify, verify_bundle, bind, ret;
          cbn [ui sys threads fst snd]; rewrite T, Tf; cbn [negb];
          cbn [ui sys threads fst snd];
          rewrite run_git_set by exact T; fold (verify_argv f);
          rewrite Ev; cbn [ui sys threads fst snd]; rewrite Rc;
          reflexivity. }
      split.
      * intros Rc confirm. apply Z.eqb_neq in Rc. rewrite E, Rc.
        split; [|reflexivity]. cbn [sys]. rewrite <- app_assoc.
        apply new_effects_app.
      * intros Rc. apply Z.eqb_eq in Rc. rewrite E, Rc.
        split; [|reflexivity]. cbn [sys]. rewrite <- app_assoc.
        apply new_effects_app.
Qed.


(** X12. A confirmed merge of a verified bundle pulls into the branch the
    current-branch query reports at that moment: its standard output
    stripped, and the empty string when the query could not be started or
    printed nothing (a detached head), in which case [git pull] is run with
    an empty branch name.  A pull that exits with another status than 0
    gives the "Merge Failed" box with its standard output and changes only
    the status line; a pull that exits with 0 gives the success box and a
    refresh, which leaves the window at page 0 with no start point; a pull
    that could not be started leaves no box at all. *)
Theorem merge_into_reported_branch a f rv w1 ob w2 op w3 :
  truthy (repo_path (git (ui a))) = true ->
  truthy f = true ->
  subprocess_run (verify_argv f) (repo_path (git (ui a))) (world (sys a))
  = (inr rv, w1) ->
  returncode rv = 0 ->
  subprocess_run show_current_argv (repo_path (git (ui a))) w1 = (ob, w2) ->
  subprocess_run ["git"; "pull"; f; reported_branch ob]
                 (repo_path (git (ui a))) w2 = (op, w3) ->
  let a' := step (ApplyBundleClick f true) a in
  let cwd := repo_path (git (ui a)) in
  let gate :=
    (Spawn (verify_argv f) cwd (inr rv)
     :: AskYesNo "Confirm Merge"
          "Bundle is valid. Do you want to MERGE it into your current branch?"
          true
     :: Spawn show_current_argv cwd ob
     :: diagnostic ob
     ++ [Spawn ["git"; "pull"; f; reported_branch ob] cwd op])%list in
  match op with
  | inl e =>
      new_effects (sys a) (sys a') = (gate ++ [Print ("Git Error: " ++ e)])%list
      /\ ui a' = with_status_var "Merging bundle..." (ui a)
  | inr rp =>
      if returncode rp =? 0 then
        (exists rest,
            new_effects (sys a) (sys a')
            = (gate ++ MessageBox showinfo "Success"
                         "Changes merged successfully!" :: rest)%list)
        /\ page_offset a' = 0
        /\ selected_commit_hash (ui a') = None
      else
        new_effects (sys a) (sys a')
        = (gate ++ [MessageBox showerror "Merge Failed"
                      ("Git output:" ++ nl ++ stdout rp)])%list
        /\ ui a' = with_status_var "Merging bundle..." (ui a)
  end.
Proof.
  destruct a as [u s t]. cbn [ui sys threads].
  intros T Tf Ev Rc Eb Ep. apply Z.eqb_eq in Rc. cbv zeta.
  unfold step. cbn [handle].
  unfold apply_bundle_action, bind, self, gets, messagebox, askyesno,
    io, emit, assign, modify, verify_bundle, fetch_bundle,
    get_current_branch, bind, ret.
  cbn [ui sys threads fst snd]. rewrite T, Tf. cbn [negb].
  cbn [ui sys threads fst snd].
  rewrite run_git_set by exact T. fold (verify_argv f).
  rewrite Ev. cbn [ui sys threads fst snd world journal]. rewrite Rc.
  cbn [negb ui sys threads fst snd world journal].
  rewrite run_git_set by exact T. fold show_current_argv.
  cbn [world journal]. rewrite Eb.
  destruct ob as [eb|rb]; cbn [reported_branch diagnostic] in Ep |- *;
    cbn [ui sys threads fst snd world journal];
    rewrite run_git_set by exact T; cbn [world journal]; rewrite Ep;
    (destruct op as [e|rp];
     [ cbn [ui sys threads fst snd world journal]; split; [|reflexivity];
       rewrite <- !app_assoc; apply (new_effects_app s)
     | cbn [ui sys threads fst snd world journal];
       destruct (returncode rp =? 0);
       [ cbn -[refresh_project_info new_effects];
         match goal with
         | |- context [refresh_project_info ?x] =>
             destruct (@refresh_project_info_resets _ x T)
               as (_ & Es & Epg & Eh & seg & Ej & _)
         end;
         cbn -[refresh_project_info new_effects] in Es, Epg, Eh, Ej;
         split; [|split];
         [ exists seg; unfold new_effects; rewrite Ej, <- !app_assoc;
           rewrite skipn_app, skipn_all, Nat.sub_diag; reflexivity
         | unfold page_offset; now rewrite Epg
         | exact Eh ]
       | cbn [ui sys threads fst snd world journal]; split; [|reflexivity];
         rewrite <- !app_assoc; apply (new_effects_app s) ] ]).
Qed.

End Bundles.

(** ** Labels and paging *)

Section Labels.
Context `{Host}.

(** The three bundle events touch the window through the status line and,
    after a merge, the refresh. *)
Lemma bundle_events_keep (P : ModernUI -> Prop) ev :
  (forall u v, P u -> P (with_status_var v u)) ->
  Maintains P refresh_project_info ->
  match ev with
  | CreateBundleClick _ | ApplyBundleClick _ _ | WorkerRun _ =>
      Maintains P (handle ev)
  | _ => True
  end.
Proof.
  intros Hs Hr. destruct ev; try exact I; cbn [handle].
  - unfold create_bundle_action, thread_start.
    apply Maintains_bind; [apply Maintains_self|intros g].
    destruct (negb _); [apply Maintains_ret|].
    apply Maintains_bind; [apply Maintains_self|intros b].
    destruct (truthy target_file); [|apply Maintains_ret].
    apply Maintains_bind; [apply Maintains_assign; intros; now apply Hs|].
    intros. apply Maintains_bind; [apply Maintains_io|intros].
    apply Maintains_modify. reflexivity.
  - unfold apply_bundle_action, messagebox, askyesno.
    repeat first
      [ exact Hr | apply Maintains_ret | apply Maintains_self
      | apply Maintains_io
      | apply Maintains_assign; intros; now apply Hs
      | apply Maintains_bind; [|intros]
      | match goal with
        | |- Maintains _ (if ?c then _ else _) => destruct c
        end ].
  - apply Maintains_bind; [apply Maintains_gets|intros pending].
    destruct (nth_error pending i) as [[f b]|]; [|apply Maintains_ret].
    apply Maintains_bind; [apply Maintains_modify; reflexivity|intros].
    unfold _run_bundle_creation, messagebox.
    repeat first
      [ apply Maintains_ret | apply Maintains_self | apply Maintains_io
      | apply Maintains_assign; intros; now apply Hs
      | apply Maintains_bind; [|intros]
      | match goal with
        | |- Maintains _ (if ?c then _ else _) => destruct c
        end ].
Qed.




End Labels.

Section PagingWindows.
Context `{Host}.

(** A page load without reset, for a repository and a branch: one log
    process for the window at the current page, and the page put on
    display. *)
Lemma load_commits_window a :
  truthy (repo_path (git (ui a))) = true ->
  truthy (text (branch_combo (ui a))) = true ->
  exists commits w' seg,
    load_commits false a
    = (Ok tt, {| ui := show_page commits (ui a);
                 sys := {| world := w'; journal := journal (sys a) ++ seg |};
                 threads := threads a |})
    /\ spawned seg
       = ["git" :: log_args (text (branch_combo (ui a)))
                            (current_page (ui a) * page_size (ui a))
                            (page_size (ui a))].
Proof.
  intros T Tb. rewrite load_commits_set by exact T. cbv zeta. rewrite Tb.
  destruct (get_commits_journal (git (ui a)) (text (branch_combo (ui a)))
              (current_page (reset_paging false (ui a)) * page_size (ui a))
              (page_size (ui a)) (sys a) T) as (c & w' & seg & E & S).
  rewrite E. exists c, w', seg. split; [reflexivity|exact S].
Qed.

Lemma load_commits_page_label reset :
  Maintains (fun u => truthy (text (branch_combo u)) = true ->
                      page_label_current u)
            (load_commits reset).
Proof.
  intros a L. destruct (truthy (repo_path (git (ui a)))) eqn:T.
  - rewrite load_commits_set by exact T. cbv zeta.
    destruct (truthy (text (branch_combo (ui a)))) eqn:Tb.
    + destruct (get_commits_ok (git (ui a)) (text (branch_combo (ui a)))
                  (current_page (reset_paging reset (ui a)) * page_size (ui a))
                  (page_size (ui a)) (sys a)) as (c & s' & ->).
      intros _. reflexivity.
    + cbn [snd ui]. intros Tb'. exfalso.
      assert (Eb : branch_combo (reset_paging reset (ui a))
                   = branch_combo (ui a)) by (destruct reset; reflexivity).
      rewrite Eb, Tb in Tb'. discriminate.
  - now rewrite load_commits_unset.
Qed.

(** After a page load for a repository the label is right, whatever it was
    before. *)
Lemma load_commits_page_label_set reset a :
  truthy (repo_path (git (ui a))) = true ->
  truthy (text (branch_combo (ui (snd (load_commits reset a))))) = true ->
  page_label_current (ui (snd (load_commits reset a))).
Proof.
  intros T. rewrite load_commits_set by exact T. cbv zeta.
  assert (Eb : branch_combo (reset_paging reset (ui a))
               = branch_combo (ui a)) by (destruct reset; reflexivity).
  destruct (truthy (text (branch_combo (ui a)))) eqn:Tb.
  - destruct (get_commits_ok (git (ui a)) (text (branch_combo (ui a)))
                (current_page (reset_paging reset (ui a)) * page_size (ui a))
                (page_size (ui a)) (sys a)) as (c & s' & ->).
    intros _. reflexivity.
  - cbn [snd ui]. rewrite Eb, Tb. discriminate.
Qed.

Lemma refresh_project_info_page_label :
  Maintains (fun u => truthy (text (branch_combo u)) = true ->
                      page_label_current u)
            refresh_project_info.
Proof.
  intros a L. destruct (truthy (repo_path (git (ui a)))) eqn:T.
  - destruct (refresh_project_info_set a T)
      as (bs & cur & s2 & seg & a3 & _ & _ & _ & E3 & ->).
    apply (f_equal snd) in E3. cbn [snd] in E3. subst a3.
    cbn -[load_commits].
    match goal with
    | |- context [load_commits true ?x] =>
        exact (@load_commits_page_label_set true x T)
    end.
  - now rewrite refresh_project_info_unset.
Qed.

(** X14. In every reachable state in which a branch is shown, the page
    label under the table shows the number of the current page, counted
    from 1: paging, choosing a branch, refreshing, choosing a folder and
    merging never leave a label of another page behind. *)
Theorem page_label_follows_page a :
  reachable a ->
  truthy (text (branch_combo (ui a))) = true ->
  lbl_page (ui a) = "Page " ++ str_of_int (current_page (ui a) + 1).
Proof.
  intros R. change (truthy (text (branch_combo (ui a))) = true ->
                    page_label_current (ui a)).
  pose proof refresh_project_info_page_label as Hr.
  induction R as [w|ev a R IH En].
  - destruct (restorable w) as [p|] eqn:Rw.
    + destruct (startup_restored _ Rw) as [_ ->]. apply Hr. discriminate.
    + rewrite (startup_not_restored _ Rw). discriminate.
  - pose proof (reachable_Inv R) as I. unfold step.
    pose proof (@bundle_events_keep _
                  (fun u => truthy (text (branch_combo u)) = true ->
                            page_label_current u) ev
                  (fun u v S => S) Hr) as Hb.
    destruct ev; try (now apply Hb); cbn [handle].
    + destruct (truthy path) eqn:Tp.
      * destruct (os_path_isdir (os_path_join path ".git") (world (sys a)))
          eqn:Dir.
        -- rewrite (browse_folder_repository _ _ Tp Dir). now apply Hr.
        -- change (truthy (text (branch_combo
                                   (ui (step (BrowseFolder path) a)))) = true ->
                   page_label_current (ui (step (BrowseFolder path) a))).
           now rewrite (browse_folder_not_repository _ _ Tp Dir).
      * apply truthy_false in Tp. subst path. exact IH.
    + unfold bind, assign, modify. cbn -[load_commits].
      apply load_commits_page_label_set. cbn.
      destruct (truthy (repo_path (git (ui a)))) eqn:T; [reflexivity|].
      cbn in En. destruct (base_unset (inv_base I) T) as [Ev _].
      rewrite Ev in En. discriminate.
    + now apply Hr.
    + unfold prev_page, bind, self, gets, assign, modify.
      cbn -[load_commits]. destruct (0 <? _); [|exact IH].
      destruct (truthy (repo_path (git (ui a)))) eqn:T.
      * apply load_commits_page_label_set. exact T.
      * rewrite load_commits_unset by exact T. intros Tb'. cbn in Tb'.
        rewrite (proj2 (base_unset (inv_base I) T)) in Tb'. discriminate.
    + unfold next_page, bind, self, gets, assign, modify.
      cbn -[load_commits].
      destruct (truthy (repo_path (git (ui a)))) eqn:T.
      * apply load_commits_page_label_set. exact T.
      * rewrite load_commits_unset by exact T. intros Tb'. cbn in Tb'.
        rewrite (proj2 (base_unset (inv_base I) T)) in Tb'. discriminate.
    + change (truthy (text (branch_combo
                              (ui (step (TreeviewSelect row) a)))) = true ->
              page_label_current (ui (step (TreeviewSelect row) a))).
      rewrite on_commit_select_step.
      destruct (nth_error (tree (ui a)) row) as [c|]; exact IH.
Qed.

(** X15. Paging while a branch is shown.  "Older" starts exactly one
    process, the log of the shown branch for the window one page further
    ([--skip] is the old offset plus 15, [-n 15]); "Newer" on a later page
    does the same for the window one page back, and on the first page it
    does nothing at all.  Either way the repository, the branch shown and
    the start point with its text are kept, so a start point chosen on one
    page stays in force while the user pages on. *)
Theorem paging_fetches_adjacent_window a :
  reachable a ->
  truthy (text (branch_combo (ui a))) = true ->
  let branch := text (branch_combo (ui a)) in
  let kept (a' : App) :=
    git (ui a') = git (ui a)
    /\ branch_combo (ui a') = branch_combo (ui a)
    /\ selected_commit_hash (ui a') = selected_commit_hash (ui a)
    /\ lbl_selection (ui a') = lbl_selection (ui a)
    /\ threads a' = threads a in
  (spawned (new_effects (sys a) (sys (step NextPage a)))
   = ["git" :: log_args branch (page_offset a + 15) 15]
   /\ page_offset (step NextPage a) = page_offset a + 15
   /\ kept (step NextPage a))
  /\ (0 < current_page (ui a) ->
      spawned (new_effects (sys a) (sys (step PrevPage a)))
      = ["git" :: log_args branch (page_offset a - 15) 15]
      /\ page_offset (step PrevPage a) = page_offset a - 15
      /\ kept (step PrevPage a))
  /\ (current_page (ui a) = 0 -> step PrevPage a = a).
Proof.
  intros R Tb branch kept. pose proof (reachable_Inv R) as I.
  pose proof (base_size (inv_base I)) as Sz.
  assert (T : truthy (repo_path (git (ui a))) = true).
  { destruct (truthy (repo_path (git (ui a)))) eqn:T; [reflexivity|].
    rewrite (proj2 (base_unset (inv_base I) T)) in Tb. discriminate. }
  assert (W : forall p,
             let a1 := {| ui := with_current_page p (ui a); sys := sys a;
                          threads := threads a |} in
             let a' := snd (load_commits false a1) in
             spawned (new_effects (sys a) (sys a'))
             = ["git" :: log_args branch (p * 15) 15]
             /\ current_page (ui a') * page_size (ui a') = p * 15
             /\ kept a').
  { intros p a1 a'. subst a'.
    destruct (@load_commits_window a1 T Tb) as (c & w' & seg & -> & S).
    cbn [snd ui sys threads]. unfold new_effects. cbn [journal].
    rewrite skipn_app, skipn_all, Nat.sub_diag. cbn [skipn app].
    subst a1. cbn [ui] in S. cbn in S. rewrite Sz in S.
    split; [exact S|]. split; [cbn; now rewrite Sz|].
    subst kept. cbn. repeat split. }
  unfold page_offset. rewrite Sz. split; [|split].
  - specialize (W (current_page (ui a) + 1)).
    replace ((current_page (ui a) + 1) * 15)
      with (current_page (ui a) * 15 + 15) in W by lia.
    exact W.
  - intros Pg. specialize (W (current_page (ui a) - 1)).
    replace ((current_page (ui a) - 1) * 15)
      with (current_page (ui a) * 15 - 15) in W by lia.
    unfold step, handle, prev_page, bind, self, gets, assign, modify.
    cbn -[load_commits new_effects Z.mul Z.sub log_args].
    apply Z.ltb_lt in Pg. rewrite Pg. exact W.
  - intros Pg. unfold step, handle, prev_page, bind, self, gets, ret.
    cbn. rewrite Pg. destruct a; reflexivity.
Qed.

End PagingWindows.

(** ** The properties above on the small hosts *)

Lemma long_older_reachable : @reachable long_history long_older.
Proof.
  unfold long_older, long_opened.
  repeat (apply reachable_step; [|vm_compute; reflexivity]).
  apply reachable_startup.
Qed.


Lemma only_program_commands_witness :
  program_command ["git"; "pull"; "out.bundle"; "main"] = true
  /\ "/home/u/proj" <> "".
Proof.
  eapply (@only_program_commands scripted_git session5 session5_reachable
            ["git"; "pull"; "out.bundle"; "main"] "/home/u/proj").
  vm_compute. repeat (first [left; reflexivity | right]).
Defined.

Lemma repository_changes_only_by_browse_witness :
  git (ui (@step scripted_git (BrowseFolder "/tmp") session1)) = proj
  /\ truthy (repo_path
               (git (ui (@step scripted_git
                           (ApplyBundleClick "out.bundle" true) session1))))
     = true.
Proof.
  split.
  - exact (proj1 (proj2 (@repository_changes_only_by_browse scripted_git
                           Refresh session1)) "/tmp").
  - exact (proj2 (proj2 (@repository_changes_only_by_browse scripted_git
                           (ApplyBundleClick "out.bundle" true) session1))
             eq_refl).
Defined.

Lemma browse_folder_rejected_witness :
  ui (@step scripted_git (BrowseFolder "/tmp") session1) = ui session1
  /\ threads (@step scripted_git (BrowseFolder "/tmp") session1)
     = threads session1
  /\ world (sys (@step scripted_git (BrowseFolder "/tmp") session1))
     = world (sys session1)
  /\ journal (sys (@step scripted_git (BrowseFolder "/tmp") session1))
     = (journal (sys session1)
        ++ [MessageBox showerror "Error"
              "This folder is not a Git repository."])%list.
Proof.
  exact (proj2 (@browse_folder_rejected scripted_git session1) "/tmp"
           eq_refl eq_refl).
Defined.

Lemma settings_follow_repository_witness :
  repo_path (git (ui session5)) = "/home/u/proj" /\ "/home/u/proj" <> "".
Proof.
  exact (@settings_follow_repository scripted_git session5 session5_reachable
           "/home/u/proj" eq_refl).
Defined.

Lemma header_shows_repository_witness :
  path_var (ui session5) = shown_path (git (ui session5))
  /\ path_var (ui session0) = "No Project Selected".
Proof.
  split.
  - exact (@header_shows_repository scripted_git session5 session5_reachable).
  - exact (@header_shows_repository scripted_git session0
             (@reachable_startup scripted_git tt)).
Defined.

Lemma startup_is_silent_witness :
  repo_path (git (ui (@startup returning_user tt))) = "/home/u/proj"
  /\ path_var (ui (@startup returning_user tt)) = "/home/u/proj"
  /\ "/home/u/proj" <> ""
  /\ current_page (ui (@startup returning_user tt)) = 0
  /\ selected_commit_hash (ui (@startup returning_user tt)) = None.
Proof.
  exact (proj2 (proj2 (@startup_is_silent returning_user tt))
           "/home/u/proj" eq_refl).
Defined.

Lemma worker_reports_outcome_witness :
  new_effects (sys session2) (sys session3)
  = [Spawn ["git"; "bundle"; "create"; "out.bundle"; "main"] "/home/u/proj"
       (completed 0 "" "Total 3 (delta 0), reused 0 (delta 0)");
     Spawn (verify_argv "out.bundle") "/home/u/proj"
       (completed 0 "out.bundle is okay" "");
     MessageBox showinfo "Success"
       ("Bundle created & Verified successfully!" ++ nl
        ++ "Saved at: out.bundle")]
  /\ ui session3 = with_status_var "Bundle ready." (ui session2).
Proof.
  pose proof (@worker_reports_outcome scripted_git session2 0%nat
                "out.bundle" "main"
                {| returncode := 0; stdout := "";
                   stderr := "Total 3 (delta 0), reused 0 (delta 0)" |} tt
                eq_refl eq_refl eq_refl) as W.
  cbv zeta in W. destruct W as (_ & _ & W).
  exact (proj1 (W eq_refl
                  {| returncode := 0; stdout := "out.bundle is okay";
                     stderr := "" |} tt eq_refl) eq_refl).
Defined.


Lemma apply_bundle_stops_short_witness :
  new_effects (sys session3)
    (sys (@step scripted_git (ApplyBundleClick "bad.bundle" true) session3))
  = [Spawn (verify_argv "bad.bundle") "/home/u/proj"
       (completed 1 ""
          "error: 'bad.bundle' does not look like a bundle file");
     MessageBox showerror "Invalid Bundle"
       ("This bundle is corrupted or invalid:" ++ nl ++ "")]
  /\ ui (@step scripted_git (ApplyBundleClick "bad.bundle" true) session3)
     = with_status_var "Verifying bundle..." (ui session3).
Proof.
  destruct (@apply_bundle_stops_short scripted_git session3 "bad.bundle")
    as [_ W].
  destruct (W eq_refl) as [_ W'].
  refine (proj1 (W' eq_refl
                   {| returncode := 1; stdout := "";
                      stderr := "error: 'bad.bundle' does not look like a bundle file" |}
                   tt eq_refl) _ true).
  discriminate.
Defined.

Lemma merge_into_reported_branch_witness :
  (exists rest,
      new_effects (sys session4) (sys session5)
      = (Spawn (verify_argv "out.bundle") "/home/u/proj"
           (completed 0 "out.bundle is okay" "")
         :: AskYesNo "Confirm Merge"
              "Bundle is valid. Do you want to MERGE it into your current branch?"
              true
         :: Spawn show_current_argv "/home/u/proj"
              (completed 0 ("main" ++ nl) "")
         :: Spawn ["git"; "pull"; "out.bundle"; "main"] "/home/u/proj"
              (completed 0 "Fast-forward" "")
         :: MessageBox showinfo "Success" "Changes merged successfully!"
         :: rest)%list)
  /\ page_offset session5 = 0
  /\ selected_commit_hash (ui session5) = None.
Proof.
  exact (@merge_into_reported_branch scripted_git session4 "out.bundle"
           {| returncode := 0; stdout := "out.bundle is okay"; stderr := "" |}
           tt (completed 0 ("main" ++ nl) "") tt
           (completed 0 "Fast-forward" "") tt
           eq_refl eq_refl eq_refl eq_refl eq_refl eq_refl).
Defined.


Lemma page_label_follows_page_witness :
  lbl_page (ui long_older)
  = "Page " ++ str_of_int (current_page (ui long_older) + 1).
Proof.
  exact (@page_label_follows_page long_history long_older
           long_older_reachable eq_refl).
Defined.

Lemma paging_fetches_adjacent_window_witness :
  spawned (new_effects (sys long_older)
             (sys (@step long_history NextPage long_older)))
  = ["git" :: log_args "main" 30 15]
  /\ spawned (new_effects (sys long_older)
                (sys (@step long_history PrevPage long_older)))
     = ["git" :: log_args "main" 0 15].
Proof.
  destruct (@paging_fetches_adjacent_window long_history long_older
              long_older_reachable eq_refl) as ((N & _) & P & _).
  split; [exact N|]. destruct P as (P & _); [reflexivity|exact P].
Defined.
